(** * Rush phased-command timeline analysis and hook dispatch

    A shallow embedding of
    - [ConsoleTimelinePlugin.ts] ([_printTimeline], [getOpenCPU], the chart
      symbol and colour tables), and
    - [PhasedCommandHooks.ts] (the [createOperations] waterfall hook),
    together with the properties the specification states about them.

    JavaScript numbers are modelled by exact rationals extended with [NaN]
    and the two infinities, and the sign of zero is not tracked.
    Comparisons come out as in the code; sums, products and quotients are
    exact, where the code rounds to binary64: a property of a sum or a
    quotient is a property of the exact value of the timestamps, and
    [Binary64] replays the arithmetic of the summary on doubles where the
    rounding shows. *)

From Stdlib Require Import List ZArith QArith Qround Lqa Lia Bool.
From Stdlib Require Import String Ascii DecimalString Permutation Sorted.
From Stdlib Require Import PrimFloat.
Import ListNotations.

(* ================================================================== *)
(** ** JavaScript values used by the plugin                            *)
(* ================================================================== *)

Module JS.

(** The exceptions the modelled built-ins can throw. *)
Inductive Error : Type :=
| RangeError   (* String.prototype.repeat with a negative or infinite count *)
| TypeError    (* property access on undefined *)
| OtherError (message : string).

Inductive Result (A : Type) : Type :=
| Ok (a : A)
| Throw (e : Error).
Arguments Ok {A} a.
Arguments Throw {A} e.

Definition bind {A B : Type} (r : Result A) (k : A -> Result B) : Result B :=
  match r with
  | Ok a => k a
  | Throw e => Throw e
  end.

(** A JavaScript [number]. *)
Inductive number : Type :=
| NaN
| PosInf
| NegInf
| Fin (q : Q).

Definition ofZ (z : Z) : number := Fin (inject_Z z).
Definition ofNat (n : nat) : number := ofZ (Z.of_nat n).

Definition isFinite (x : number) : bool :=
  match x with
  | Fin _ => true
  | _ => false
  end.

Definition Qzero (q : Q) : bool := Qeq_bool q 0.

(** [x == 0] *)
Definition isZero (x : number) : bool :=
  match x with
  | Fin q => Qeq_bool q 0
  | _ => false
  end.
Definition Qneg (q : Q) : bool := negb (Qle_bool 0 q).

Definition neg (x : number) : number :=
  match x with
  | NaN => NaN
  | PosInf => NegInf
  | NegInf => PosInf
  | Fin q => Fin (- q)
  end.

(** [a + b] *)
Definition add (a b : number) : number :=
  match a, b with
  | NaN, _ | _, NaN => NaN
  | PosInf, NegInf | NegInf, PosInf => NaN
  | PosInf, _ | _, PosInf => PosInf
  | NegInf, _ | _, NegInf => NegInf
  | Fin x, Fin y => Fin (x + y)
  end.

(** [a - b] *)
Definition sub (a b : number) : number := add a (neg b).

(** An infinity with the sign flipped when [flip] holds. *)
Definition signedInf (positive flip : bool) : number :=
  if xorb positive flip then PosInf else NegInf.

(** [a * b] *)
Definition mul (a b : number) : number :=
  match a, b with
  | NaN, _ | _, NaN => NaN
  | Fin x, Fin y => Fin (x * y)
  | PosInf, PosInf | NegInf, NegInf => PosInf
  | PosInf, NegInf | NegInf, PosInf => NegInf
  | PosInf, Fin y | Fin y, PosInf =>
      if Qzero y then NaN else signedInf true (Qneg y)
  | NegInf, Fin y | Fin y, NegInf =>
      if Qzero y then NaN else signedInf false (Qneg y)
  end.

(** [a / b].  A zero divisor is taken to be [+0]: every divisor of the
    plugin is a difference of two numbers or a positive constant. *)
Definition div (a b : number) : number :=
  match a, b with
  | NaN, _ | _, NaN => NaN
  | Fin x, Fin y =>
      if Qzero y
      then (if Qzero x then NaN else signedInf true (Qneg x))
      else Fin (x / y)
  | Fin _, PosInf | Fin _, NegInf => Fin 0
  | PosInf, Fin y => signedInf true (Qneg y)
  | NegInf, Fin y => signedInf false (Qneg y)
  | _, _ => NaN
  end.

(** [Math.floor] *)
Definition floor (a : number) : number :=
  match a with
  | Fin x => ofZ (Qfloor x)
  | other => other
  end.

(** [a < b] and [a > b]; comparisons with [NaN] are false. *)
Definition lt (a b : number) : bool :=
  match a, b with
  | NaN, _ | _, NaN => false
  | _, NegInf | PosInf, _ => false
  | NegInf, _ | _, PosInf => true
  | Fin x, Fin y => negb (Qle_bool y x)
  end.

Definition gt (a b : number) : bool := lt b a.

(** [a <= b] *)
Definition le (a b : number) : bool :=
  match a, b with
  | NaN, _ | _, NaN => false
  | NegInf, _ | _, PosInf => true
  | _, NegInf | PosInf, _ => false
  | Fin x, Fin y => Qle_bool x y
  end.

(** Truthiness of a number: [NaN] and zero are falsy. *)
Definition truthy (a : number) : bool :=
  match a with
  | NaN => false
  | Fin x => negb (Qzero x)
  | _ => true
  end.

(** Truthiness of [number | undefined] for a finite reading. *)
Definition truthyOpt (a : option Q) : bool :=
  match a with
  | None => false
  | Some x => negb (Qzero x)
  end.

(** *** Strings *)

Fixpoint repeatNat (s : string) (n : nat) : string :=
  match n with
  | O => EmptyString
  | S k => s ++ repeatNat s k
  end.

(** [ToIntegerOrInfinity] followed by the range check of
    [String.prototype.repeat]: [NaN] counts as 0, a negative or infinite
    count throws. *)
Definition repeatCount (count : number) : Result nat :=
  match count with
  | NaN => Ok O
  | PosInf | NegInf => Throw RangeError
  | Fin q =>
      let n := Z.quot (Qnum q) (Zpos (Qden q)) in
      if (n <? 0)%Z then Throw RangeError else Ok (Z.to_nat n)
  end.

(** [s.repeat(count)] *)
Definition repeat (s : string) (count : number) : Result string :=
  bind (repeatCount count) (fun n => Ok (repeatNat s n)).

(** [s.padStart(n)] with the default filler, a space.  A target length
    not above the length of [s] leaves [s] as it is. *)
Definition padStart (s : string) (n : Z) : string :=
  (repeatNat " " (Z.to_nat (n - Z.of_nat (String.length s))) ++ s)%string.

Definition natToString (n : nat) : string :=
  NilZero.string_of_uint (Nat.to_uint n).

Definition ZToString (z : Z) : string :=
  NilZero.string_of_int (Z.to_int z).

(** The digits of a non-negative integer [n] with a decimal point before
    the last one, as [toFixed(1)] lays them out. *)
Definition fixed1Digits (n : Z) : string :=
  let d := (n mod 10)%Z in
  (ZToString (n / 10) ++ "." ++ ZToString d)%string.

(** [x.toFixed(1)] for a finite [x] below 10^21 in magnitude: the
    nearest tenth, the larger one on a tie.  [x] is the exact rational;
    the code rounds the double nearest to it, which can lie on the other
    side of a tie (0.35 is held as 0.34999999999999997 and printed as
    "0.3").  The general properties below do not depend on the digits. *)
Definition QtoFixed1 (x : Q) : string :=
  let s := if Qneg x then "-"%string else EmptyString in
  let a := if Qneg x then (- x)%Q else x in
  (s ++ fixed1Digits (Qfloor (a * 10 + (1 # 2))%Q))%string.

(** [x.toFixed(1)] *)
Definition toFixed1 (x : number) : string :=
  match x with
  | NaN => "NaN"
  | PosInf => "Infinity"
  | NegInf => "-Infinity"
  | Fin q => QtoFixed1 q
  end.

End JS.

(* ================================================================== *)
(** ** Data model of the timeline plugin                               *)
(* ================================================================== *)

(** [OperationStatus] *)
Inductive OperationStatus : Type :=
| Ready
| Executing
| Success
| SuccessWithWarning
| Failure
| Blocked
| Skipped
| FromCache
| NoOp.

(** The colours of [colors/safe] the plugin uses; [plain] is text written
    without a colour. *)
Inductive Color : Type :=
| plain
| yellow
| green
| red
| gray
| cyan
| white.

(** A run of characters in one colour; a terminal line is a list of them. *)
Record Span : Type := paint { spanColor : Color; spanText : string }.

Definition Line : Type := list Span.

Definition text (s : string) : Span := paint plain s.

(** The number of characters a line shows. *)
Definition glyphs (l : Line) : nat :=
  fold_right (fun sp n => (String.length (spanText sp) + n)%nat) O l.

(** Timeline - a wider column width for printing the timeline summary *)
Definition TIMELINE_WIDTH : nat := 109.

(** Timeline - symbols representing each operation status *)
Definition TIMELINE_CHART_SYMBOLS (s : OperationStatus) : string :=
  match s with
  | Ready => "?"
  | Executing => "?"
  | Success => "#"
  | SuccessWithWarning => "!"
  | Failure => "!"
  | Blocked => "."
  | Skipped => "%"
  | FromCache => "%"
  | NoOp => "%"
  end.

(** Timeline - colorizer for each operation status *)
Definition TIMELINE_CHART_COLORIZER (s : OperationStatus) : Color :=
  match s with
  | Ready => yellow
  | Executing => yellow
  | Success => green
  | SuccessWithWarning => yellow
  | Failure => red
  | Blocked => red
  | Skipped => green
  | FromCache => green
  | NoOp => gray
  end.

(** [ITimelineRecord].  [name] is declared a string, but it is filled with
    [operation.name!], which is undefined when the operation has no name. *)
Record ITimelineRecord : Type := {
  startTime : Q;
  endTime : Q;
  durationString : string;
  name : option string;
  status : OperationStatus
}.

(** [IPhase]: an object, compared by identity as a [Map] key. *)
Record IPhase : Type := { phaseId : nat; phaseName : string }.

Record IOperationRunner : Type := { silent : bool }.

Module Operation.
Record t : Type := {
  runner : option IOperationRunner;
  name : option string;
  associatedPhase : option IPhase
}.
End Operation.

Module Stopwatch.
(** Both timestamps are [number | undefined], in milliseconds. *)
Record t : Type := {
  startTime : option Q;
  endTime : option Q
}.

(** Modelled from the spec: the [Stopwatch] class is not among the
    sources.  Its [duration] is the derived duration, [endTime - startTime];
    it is in seconds, the timestamps being milliseconds ([_printTimeline]
    divides the wall-clock difference by 1000 to bring it to the unit of the
    summed durations).  A stopwatch that has not both timestamps is not
    asked for its duration by the plugin. *)
Definition duration (sw : t) : Q :=
  match startTime sw, endTime sw with
  | Some s, Some e => (e - s) / 1000
  | _, _ => 0
  end.
End Stopwatch.

Record IOperationExecutionResult : Type := {
  opStatus : OperationStatus;
  stopwatch : Stopwatch.t
}.

(** [IExecutionResult.operationResults]: a [Map], iterated in insertion
    order. *)
Record IExecutionResult : Type := {
  operationResults : list (Operation.t * IOperationExecutionResult)
}.

(* ================================================================== *)
(** ** Gathering the records ([_printTimeline], first loop)            *)
(* ================================================================== *)

(** [operation.runner?.silent] *)
Definition runnerSilent (operation : Operation.t) : bool :=
  match Operation.runner operation with
  | Some r => silent r
  | None => false
  end.

(** [startTime && endTime]: both timestamps defined and not zero. *)
Definition timestamps (sw : Stopwatch.t) : option (Q * Q) :=
  match Stopwatch.startTime sw, Stopwatch.endTime sw with
  | Some s, Some e =>
      if negb (JS.Qzero s) && negb (JS.Qzero e) then Some (s, e) else None
  | _, _ => None
  end.

(** [operation.name?.length || 0] *)
Definition nameLengthOf (operation : Operation.t) : nat :=
  match Operation.name operation with
  | Some n => String.length n
  | None => O
  end.

(** [durationByPhase.get(phase)] *)
Fixpoint phaseGet (m : list (IPhase * Q)) (p : IPhase) : option Q :=
  match m with
  | [] => None
  | (k, v) :: rest => if Nat.eqb (phaseId k) (phaseId p) then Some v else phaseGet rest p
  end.

(** [durationByPhase.set(phase, v)]: an existing key keeps its place. *)
Fixpoint phaseSet (m : list (IPhase * Q)) (p : IPhase) (v : Q) : list (IPhase * Q) :=
  match m with
  | [] => [(p, v)]
  | (k, w) :: rest =>
      if Nat.eqb (phaseId k) (phaseId p) then (k, v) :: rest
      else (k, w) :: phaseSet rest p v
  end.

(** [x || 0] for [x : number | undefined] *)
Definition orZero (x : option Q) : Q :=
  match x with
  | Some v => if JS.Qzero v then 0 else v
  | None => 0
  end.

(** The variables the first loop updates. *)
Record Gathered : Type := {
  durationByPhase : list (IPhase * Q);
  data : list ITimelineRecord;
  longestNameLength : nat;
  longestDurationLength : nat;
  allStart : JS.number;
  allEnd : JS.number;
  workDuration : Q
}.

Definition gatherInit : Gathered := {|
  durationByPhase := [];
  data := [];
  longestNameLength := 0;
  longestDurationLength := 0;
  allStart := JS.PosInf;
  allEnd := JS.NegInf;
  workDuration := 0
|}.

(** One iteration of [for (const [operation, operationResult] of
    result.operationResults)].  The sums [workDuration] and
    [durationByPhase] are exact here; the code rounds every sum to a
    double ([Binary64.workDuration] below). *)
Definition gatherStep (g : Gathered)
    (entry : Operation.t * IOperationExecutionResult) : Gathered :=
  let (operation, operationResult) := entry in
  if runnerSilent operation then g
  else
    let sw := stopwatch operationResult in
    match timestamps sw with
    | None => g
    | Some (s, e) =>
        let nameLength := nameLengthOf operation in
        let duration := Stopwatch.duration sw in
        let durationString := JS.QtoFixed1 duration in
        let durationLength := String.length durationString in
        {| longestNameLength :=
             if (longestNameLength g <? nameLength)%nat then nameLength
             else longestNameLength g;
           longestDurationLength :=
             if (longestDurationLength g <? durationLength)%nat then durationLength
             else longestDurationLength g;
           allEnd := if JS.gt (JS.Fin e) (allEnd g) then JS.Fin e else allEnd g;
           allStart := if JS.lt (JS.Fin s) (allStart g) then JS.Fin s else allStart g;
           workDuration := workDuration g + duration;
           durationByPhase :=
             match Operation.associatedPhase operation with
             | Some phase =>
                 phaseSet (durationByPhase g) phase
                   (orZero (phaseGet (durationByPhase g) phase) + duration)
             | None => durationByPhase g
             end;
           data :=
             data g ++ [ {| startTime := s;
                            endTime := e;
                            durationString := durationString;
                            name := Operation.name operation;
                            status := opStatus operationResult |} ]
        |}
    end.

Definition gather (result : IExecutionResult) : Gathered :=
  fold_left gatherStep (operationResults result) gatherInit.

(** [data.sort((a, b) => a.startTime - b.startTime)]: the sort is stable. *)
Fixpoint insertByStart (r : ITimelineRecord) (l : list ITimelineRecord)
  : list ITimelineRecord :=
  match l with
  | [] => [r]
  | x :: rest =>
      if Qle_bool (startTime r) (startTime x) then r :: x :: rest
      else x :: insertByStart r rest
  end.

Fixpoint sortByStart (l : list ITimelineRecord) : list ITimelineRecord :=
  match l with
  | [] => []
  | r :: rest => insertByStart r (sortByStart rest)
  end.

(* ================================================================== *)
(** ** Busy CPUs and the chart ([_printTimeline], second loop)         *)
(* ================================================================== *)

(** [getOpenCPU]: the first index whose entry is at most [time], the
    length of [busyCpus] when there is none. *)
Fixpoint getOpenCPU (busyCpus : list Q) (time : Q) : nat :=
  match busyCpus with
  | [] => O
  | b :: rest => if Qle_bool b time then O else S (getOpenCPU rest time)
  end.

(** [busyCpus[i] = v] for [i] at most the length: writing at the length
    extends the array by one. *)
Fixpoint setCpu (busyCpus : list Q) (i : nat) (v : Q) : list Q :=
  match busyCpus, i with
  | [], _ => [v]
  | _ :: rest, O => v :: rest
  | b :: rest, S k => b :: setCpu rest k v
  end.

(** The two statements under [// Track busy CPUs]. *)
Definition trackBusy (busyCpus : list Q) (r : ITimelineRecord) : list Q :=
  setCpu busyCpus (getOpenCPU busyCpus (startTime r)) (endTime r).

(** [busyCpus] after the loop over [data]. *)
Definition busyCpusOf (data : list ITimelineRecord) : list Q :=
  fold_left trackBusy data [].

(** [PrintUtilities.getConsoleWidth() || TIMELINE_WIDTH] *)
Definition maxWidthOf (consoleWidth : option nat) : nat :=
  match consoleWidth with
  | Some (S w) => S w
  | _ => TIMELINE_WIDTH
  end.

(** [maxWidth - longestNameLength - longestDurationLength - 4] *)
Definition chartWidthOf (maxWidth longestName longestDuration : nat) : Z :=
  Z.of_nat maxWidth - Z.of_nat longestName - Z.of_nat longestDuration - 4.

(** [Math.floor(((time - allStart) * chartWidth) / allDuration)].  The
    product and the quotient are exact here; the code rounds each to a
    double before [Math.floor], so that a quotient that is an integer when
    taken exactly can come out just below it. *)
Definition columnIndex (time : Q) (allStart : JS.number) (chartWidth : Z)
    (allDuration : JS.number) : JS.number :=
  JS.floor
    (JS.div (JS.mul (JS.sub (JS.Fin time) allStart) (JS.ofZ chartWidth))
            allDuration).

(** The [chart] string of one row. *)
Definition chart (st : OperationStatus) (startIdx endIdx : JS.number)
    (chartWidth : Z) : JS.Result Line :=
  let length := JS.add (JS.sub endIdx startIdx) (JS.ofZ 1) in
  JS.bind (JS.repeat "-" startIdx) (fun lead =>
  JS.bind (JS.repeat (TIMELINE_CHART_SYMBOLS st) length) (fun bar =>
  JS.bind (JS.repeat "-" (JS.sub (JS.ofZ chartWidth) endIdx)) (fun trail =>
  JS.Ok [paint gray lead; paint (TIMELINE_CHART_COLORIZER st) bar; paint gray trail]))).

(** The values [_printTimeline] computes between its two loops. *)
Record Layout : Type := {
  nameWidth : nat;
  durationWidth : nat;
  chartStart : JS.number;
  allDuration : JS.number;
  maxWidth : nat;
  chartWidth : Z
}.

Definition layoutOf (consoleWidth : option nat) (g : Gathered) : Layout := {|
  nameWidth := longestNameLength g;
  durationWidth := longestDurationLength g;
  chartStart := allStart g;
  allDuration := JS.sub (allEnd g) (allStart g);
  maxWidth := maxWidthOf consoleWidth;
  chartWidth :=
    chartWidthOf (maxWidthOf consoleWidth) (longestNameLength g)
                 (longestDurationLength g)
|}.

(** The line written for one record. *)
Definition row (ly : Layout) (r : ITimelineRecord) : JS.Result Line :=
  let startIdx := columnIndex (startTime r) (chartStart ly) (chartWidth ly) (allDuration ly) in
  let endIdx := columnIndex (endTime r) (chartStart ly) (chartWidth ly) (allDuration ly) in
  JS.bind (chart (status r) startIdx endIdx (chartWidth ly)) (fun bar =>
  match name r with
  | None => JS.Throw JS.TypeError
  | Some n =>
      JS.Ok ([paint cyan (JS.padStart n (Z.of_nat (nameWidth ly))); text " "]
             ++ bar
             ++ [text " ";
                 paint white (JS.padStart (durationString r)
                                (Z.of_nat (durationWidth ly)) ++ "s")])
  end).

(** What a run has written to the terminal, and the exception that ended
    it, if any. *)
Record Outcome : Type := {
  written : list Line;
  thrown : option JS.Error
}.

(** The loop [for (const {...} of data)]: the final [busyCpus] and the rows
    written, or the rows written before an exception. *)
Fixpoint printRows (ly : Layout) (rows : list ITimelineRecord)
    (busyCpus : list Q) (out : list Line)
  : list Q * list Line * option JS.Error :=
  match rows with
  | [] => (busyCpus, out, None)
  | r :: rest =>
      let busy' := trackBusy busyCpus r in
      match row ly r with
      | JS.Throw e => (busy', out, Some e)
      | JS.Ok line => printRows ly rest busy' (out ++ [line])
      end
  end.

(* ================================================================== *)
(** ** Legend, summary and phases ([_printTimeline], last part)        *)
(* ================================================================== *)

(** The four figures of the summary area. *)
Record Summary : Type := {
  totalWork : JS.number;
  wallClock : JS.number;
  usedCpus : nat;
  avgParallelism : JS.number
}.

(** The two quotients are exact here; [Binary64.avgParallelism] below
    is the quotient of the doubles. *)
Definition summaryOf (g : Gathered) (ly : Layout) (busyCpus : list Q) : Summary :=
  let allDurationSeconds := JS.div (allDuration ly) (JS.ofZ 1000) in
  {| totalWork := JS.Fin (workDuration g);
     wallClock := allDurationSeconds;
     usedCpus := List.length busyCpus;
     avgParallelism := JS.div (JS.Fin (workDuration g)) allDurationSeconds |}.

Definition legend0 : string := "LEGEND:".
Definition legend1 : string :=
  "  [#] Success  [!] Failed/warnings  [%] Skipped/cached/no-op".

Definition summaryLines (w : nat) (sm : Summary) : list Line :=
  let summary0 := ("Total Work: " ++ JS.toFixed1 (totalWork sm) ++ "s")%string in
  let summary1 := ("Wall Clock: " ++ JS.toFixed1 (wallClock sm) ++ "s")%string in
  [ [text (legend0 ++ JS.padStart summary0 (Z.of_nat w - Z.of_nat (String.length legend0)))];
    [text (legend1 ++ JS.padStart summary1 (Z.of_nat w - Z.of_nat (String.length legend1)))];
    [text (JS.padStart ("Max Parallelism Used: " ++ JS.natToString (usedCpus sm))
                       (Z.of_nat w))];
    [text (JS.padStart ("Avg Parallelism Used: " ++ JS.toFixed1 (avgParallelism sm))
                       (Z.of_nat w))] ].

(** [maxPhaseName] after the loop over [durationByPhase.keys()]. *)
Definition maxPhaseNameOf (m : list (IPhase * Q)) : nat :=
  fold_left
    (fun acc (kv : IPhase * Q) =>
       let len := String.length (phaseName (fst kv)) in
       if (acc <? len)%nat then len else acc)
    m 16%nat.

(** The block under [if (durationByPhase.size > 0)]. *)
Definition phaseSection (m : list (IPhase * Q)) : list Line :=
  if (0 <? List.length m)%nat then
    [text "BY PHASE:"]
    :: map (fun kv : IPhase * Q =>
              [ text "  ";
                paint cyan (JS.padStart (phaseName (fst kv))
                                        (Z.of_nat (maxPhaseNameOf m)));
                text (" " ++ JS.QtoFixed1 (snd kv) ++ "s") ])
           m
  else [].

(** [_printTimeline(terminal, result)], with the console width the
    terminal reports. *)
Definition _printTimeline (consoleWidth : option nat) (result : IExecutionResult)
  : Outcome :=
  let g := gather result in
  let sorted := sortByStart (data g) in
  let ly := layoutOf consoleWidth g in
  let rule : Line := [text (JS.repeatNat "=" (maxWidth ly))] in
  match printRows ly sorted [] [[text ""]; rule] with
  | (_, out, Some e) => {| written := out; thrown := Some e |}
  | (busyCpus, out, None) =>
      {| written :=
           out ++ [rule]
               ++ summaryLines (maxWidth ly) (summaryOf g ly busyCpus)
               ++ phaseSection (durationByPhase g)
               ++ [[text ""]];
         thrown := None |}
  end.

(* ================================================================== *)
(** ** The [createOperations] hook                                     *)
(* ================================================================== *)

Module Hooks.
Section Waterfall.

(** The payload, [Set<Operation>], and [ICreateOperationsContext]. *)
Variables Operations Context : Type.

(** A handler tapped into the hook: it is given the operations and the
    context and resolves to a set of operations, or rejects. *)
Definition Handler : Type := Operations -> Context -> JS.Result Operations.

Record Tap : Type := { tapName : string; tapFn : Handler }.

(** Modelled from the spec: [AsyncSeriesWaterfallHook] comes from the
    [tapable] package, which is not among the sources.  It keeps its
    handlers in registration order and dispatches them as a sequential
    await-and-replace loop; a handler that fails ends the dispatch and its
    failure goes to the caller. *)
Record AsyncSeriesWaterfallHook : Type := { taps : list Tap }.

(** [new AsyncSeriesWaterfallHook(['operations', 'context'], 'createOperations')] *)
Definition createOperations : AsyncSeriesWaterfallHook := {| taps := [] |}.

(** Modelled from the spec: [hook.tapPromise(name, fn)] of [tapable], not
    among the sources; registration appends, so that the handlers stay in
    registration order. *)
Definition tapPromise (hook : AsyncSeriesWaterfallHook) (n : string) (fn : Handler)
  : AsyncSeriesWaterfallHook :=
  {| taps := taps hook ++ [ {| tapName := n; tapFn := fn |} ] |}.

(** One handler invocation: which handler (by registration index) and the
    arguments it was given. *)
Record Call : Type := {
  callee : nat;
  givenOperations : Operations;
  givenContext : Context
}.

(** Modelled from the spec: the dispatch of [tapable]'s waterfall hook,
    not among the sources, as the sequential await-and-replace loop, here
    from handler number [idx] on; the calls are logged in the order they
    happen. *)
Fixpoint dispatch (handlers : list Tap) (idx : nat) (current : Operations)
    (context : Context) : list Call * JS.Result Operations :=
  match handlers with
  | [] => ([], JS.Ok current)
  | h :: rest =>
      let call := {| callee := idx; givenOperations := current;
                     givenContext := context |} in
      match tapFn h current context with
      | JS.Throw e => ([call], JS.Throw e)
      | JS.Ok next =>
          let (calls, res) := dispatch rest (S idx) next context in
          (call :: calls, res)
      end
  end.

(** Modelled from the spec: [hook.promise(operations, context)] of
    [tapable], not among the sources: the dispatch over all handlers. *)
Definition promise (hook : AsyncSeriesWaterfallHook) (operations : Operations)
    (context : Context) : list Call * JS.Result Operations :=
  dispatch (taps hook) O operations context.

(** Registering the handlers of [ts] one after the other on a new hook. *)
Definition registerAll (ts : list Tap) : AsyncSeriesWaterfallHook :=
  fold_left (fun hook t => tapPromise hook (tapName t) (tapFn t)) ts createOperations.

End Waterfall.

Arguments tapName {Operations Context} _.
Arguments tapFn {Operations Context} _.
Arguments taps {Operations Context} _.
Arguments tapPromise {Operations Context} hook n fn.
Arguments callee {Operations Context} _.
Arguments givenOperations {Operations Context} _.
Arguments givenContext {Operations Context} _.
Arguments dispatch {Operations Context} handlers idx current context.
Arguments promise {Operations Context} hook operations context.
Arguments registerAll {Operations Context} ts.

End Hooks.

(* ================================================================== *)
(** ** Reference definitions the properties are stated with            *)
(* ================================================================== *)

(** A timestamp the first loop accepts: defined and not zero. *)
Definition hasTimestamp (t : option Q) : bool :=
  match t with
  | Some x => negb (Qeq_bool x 0)
  | None => false
  end.

(** An entry of the result map that is not filtered out: its runner is not
    marked silent and its stopwatch has the start and the end timestamp. *)
Definition kept (entry : Operation.t * IOperationExecutionResult) : bool :=
  negb (runnerSilent (fst entry))
  && hasTimestamp (Stopwatch.startTime (stopwatch (snd entry)))
  && hasTimestamp (Stopwatch.endTime (stopwatch (snd entry))).

(** The filter as the specification words it: an entry is dropped when
    its runner is marked silent or its stopwatch lacks both timestamps. *)
Definition droppedAsWorded (entry : Operation.t * IOperationExecutionResult) : bool :=
  runnerSilent (fst entry)
  || (match Stopwatch.startTime (stopwatch (snd entry)),
            Stopwatch.endTime (stopwatch (snd entry)) with
      | None, None => true
      | _, _ => false
      end).

Definition timeOr0 (t : option Q) : Q :=
  match t with
  | Some x => x
  | None => 0
  end.

Definition durationOf (entry : Operation.t * IOperationExecutionResult) : Q :=
  Stopwatch.duration (stopwatch (snd entry)).

(** The record a kept entry contributes. *)
Definition recordOf (entry : Operation.t * IOperationExecutionResult)
  : ITimelineRecord :=
  {| startTime := timeOr0 (Stopwatch.startTime (stopwatch (snd entry)));
     endTime := timeOr0 (Stopwatch.endTime (stopwatch (snd entry)));
     durationString := JS.QtoFixed1 (durationOf entry);
     name := Operation.name (fst entry);
     status := opStatus (snd entry) |}.

Definition sumQ (l : list Q) : Q := fold_right Qplus 0 l.

(** [m] is the least start time of [rows] (one of them, below all). *)
Definition leastStart (rows : list ITimelineRecord) (m : Q) : Prop :=
  In m (map startTime rows) /\ forall r, In r rows -> m <= startTime r.

(** [m] is the greatest end time of [rows]. *)
Definition greatestEnd (rows : list ITimelineRecord) (m : Q) : Prop :=
  In m (map endTime rows) /\ forall r, In r rows -> endTime r <= m.

(** The entries whose operation is associated with phase [p]. *)
Definition ofPhase (p : IPhase) (entry : Operation.t * IOperationExecutionResult)
  : bool :=
  match Operation.associatedPhase (fst entry) with
  | Some q => Nat.eqb (phaseId q) (phaseId p)
  | None => false
  end.

Definition hasPhase (entry : Operation.t * IOperationExecutionResult) : bool :=
  match Operation.associatedPhase (fst entry) with
  | Some _ => true
  | None => false
  end.

(* ================================================================== *)
(** ** Sample inputs                                                   *)
(* ================================================================== *)

(** A named operation with a runner that is not silent. *)
Definition sampleOperation (n : string) (phase : option IPhase) : Operation.t :=
  {| Operation.runner := Some {| silent := false |};
     Operation.name := Some n;
     Operation.associatedPhase := phase |}.

Definition sampleEntry (n : string) (phase : option IPhase)
    (s e : option Q) (st : OperationStatus)
  : Operation.t * IOperationExecutionResult :=
  (sampleOperation n phase,
   {| opStatus := st;
      stopwatch := {| Stopwatch.startTime := s; Stopwatch.endTime := e |} |}).

Definition phaseBuild : IPhase := {| phaseId := 1; phaseName := "_phase:build" |}.
Definition phaseTest : IPhase := {| phaseId := 2; phaseName := "_phase:test" |}.

(** Started at 5 ms, never stopped. *)
Definition entryUnfinished : Operation.t * IOperationExecutionResult :=
  sampleEntry "a (build)" (Some phaseBuild) (Some 5) None Executing.

(** Started at 0 ms, stopped at 5 ms. *)
Definition entryFromZero : Operation.t * IOperationExecutionResult :=
  sampleEntry "b (build)" (Some phaseBuild) (Some 0) (Some 5) Success.

(** Three operations: A 1s-4s, B 4s-11s, C 2s-5s (timestamps in ms). *)
Definition resultABC : IExecutionResult :=
  {| operationResults :=
       [ sampleEntry "A" (Some phaseBuild) (Some 1000) (Some 4000) Success;
         sampleEntry "B" (Some phaseTest) (Some 4000) (Some 11000) Failure;
         sampleEntry "C" None (Some 2000) (Some 5000) FromCache ] |}.

(** One operation that starts and ends in the same millisecond. *)
Definition resultInstant : IExecutionResult :=
  {| operationResults :=
       [ sampleEntry "noop (build)" (Some phaseBuild) (Some 1000) (Some 1000) NoOp ] |}.

(** No operation at all. *)
Definition resultEmpty : IExecutionResult := {| operationResults := [] |}.

(** Two operations with the long names of a real workspace. *)
Definition resultLongNames : IExecutionResult :=
  {| operationResults :=
       [ sampleEntry "@rushstack/node-core-library (build)" (Some phaseBuild)
           (Some 1000) (Some 10500) Success;
         sampleEntry "@rushstack/node-core-library (test)" (Some phaseTest)
           (Some 10500) (Some 12700) Success ] |}.

(** A result whose operations are all silent or never ran. *)
Definition resultNoneEligible : IExecutionResult :=
  {| operationResults :=
       [ ({| Operation.runner := Some {| silent := true |};
             Operation.name := Some "quiet (build)"%string;
             Operation.associatedPhase := Some phaseBuild |},
          {| opStatus := Success;
             stopwatch := {| Stopwatch.startTime := Some 1000;
                             Stopwatch.endTime := Some 2000 |} |});
         sampleEntry "blocked (test)" (Some phaseTest) None None Blocked ] |}.

(** Handlers over sets of operation names: one adds "lint", one drops
    everything but "build", one rejects. *)
Definition addLint : Hooks.Handler (list string) bool :=
  fun ops _ => JS.Ok (ops ++ ["lint"%string]).
Definition onlyBuild : Hooks.Handler (list string) bool :=
  fun ops _ => JS.Ok (filter (String.eqb "build") ops).
Definition rejecting : Hooks.Handler (list string) bool :=
  fun _ _ => JS.Throw (JS.OtherError "no project selected").

(* ================================================================== *)
(** ** Overlap of intervals                                            *)
(* ================================================================== *)

(** [t] lies in the half-open interval [[startTime r, endTime r)]. *)
Definition covers (t : Q) (r : ITimelineRecord) : bool :=
  Qle_bool (startTime r) t && negb (Qle_bool (endTime r) t).

(** How many records are running at time [t]. *)
Definition overlapAt (t : Q) (rows : list ITimelineRecord) : nat :=
  List.length (filter (covers t) rows).

(** The greatest number of records running at one time, by a sweep over
    the start times (a greatest overlap is reached at some start). *)
Definition maxOverlap (rows : list ITimelineRecord) : nat :=
  list_max (map (fun r => overlapAt (startTime r) rows) rows).

(** Ascending start times. *)
Definition startsAscending (rows : list ITimelineRecord) : Prop :=
  StronglySorted (fun a b => startTime a <= startTime b) rows.

(** [x > t] *)
Definition above (t x : Q) : bool := negb (Qle_bool x t).

(** The entries of [busyCpus] that are still busy at time [t]. *)
Definition countAbove (t : Q) (busyCpus : list Q) : nat :=
  List.length (filter (above t) busyCpus).

(** The records that end after [t]. *)
Definition endsAfter (t : Q) (rows : list ITimelineRecord) : nat :=
  List.length (filter (fun r => above t (endTime r)) rows).

Definition interval (s e : Q) : ITimelineRecord :=
  {| startTime := s; endTime := e; durationString := JS.QtoFixed1 ((e - s) / 1000);
     name := Some "op"%string; status := Success |}.

(** One operation from 1 ms to 10 ms and one that starts and ends at 5 ms. *)
Definition rowsWithInstant : list ITimelineRecord := [interval 1 10; interval 5 5].

(** Three operations of which at most two run at one time. *)
Definition rowsStaggered : list ITimelineRecord :=
  [interval 1000 4000; interval 2000 5000; interval 4000 11000].

(** The characters of a chart, colours dropped. *)
Definition uncoloured (r : JS.Result Line) : JS.Result (list string) :=
  JS.bind r (fun l => JS.Ok (map spanText l)).

(** The layout of [resultABC] on a terminal of 40 columns, and its first
    row. *)
Definition layoutABC : Layout := layoutOf (Some 40%nat) (gather resultABC).
Definition rowA : ITimelineRecord :=
  recordOf (sampleEntry "A" (Some phaseBuild) (Some 1000) (Some 4000) Success).

(** An eligible operation whose name is undefined, after a named one. *)
Definition resultNameless : IExecutionResult :=
  {| operationResults :=
       [ sampleEntry "first (build)" (Some phaseBuild) (Some 1000) (Some 3000) Success;
         ({| Operation.runner := None;
             Operation.name := None;
             Operation.associatedPhase := None |},
          {| opStatus := Success;
             stopwatch := {| Stopwatch.startTime := Some 2000;
                             Stopwatch.endTime := Some 5000 |} |}) ] |}.

(** The phase ids of the entries that have a phase, in order. *)
Definition phaseIdsOf (es : list (Operation.t * IOperationExecutionResult))
  : list nat :=
  flat_map (fun e => match Operation.associatedPhase (fst e) with
                     | Some p => [phaseId p]
                     | None => []
                     end) es.

(** The members of a list in the order of their first occurrence. *)
Definition firstOccurrences (l : list nat) : list nat :=
  rev (nodup Nat.eq_dec (rev l)).

(* ================================================================== *)
(** ** [CoreConfigFiles.loadHeftConfigurationFileForProjectAsync]      *)
(* ================================================================== *)

Module CoreConfigFiles.
Section Configuration.

(** The JSON objects the function hands through untouched ([options] of
    a plugin or an event, the [cleanFiles] operations). *)
Variable Json : Type.

(** [IHeftConfigurationJsonPluginSpecifier].  [pluginPackage] is declared
    a string; the function assigns it the result of
    [getPropertyOriginalValue(...)!], which is undefined when no original
    value is recorded.  [pluginPackageRoot] is not in the file: it is
    undefined until the function sets it. *)
Record IHeftConfigurationJsonPluginSpecifier : Type := {
  pluginPackage : option string;
  pluginPackageRoot : option string;
  pluginName : option string;
  options : option Json
}.

(** Plugin specifiers are objects that the function changes in place
    through the references it collects: a reference is an address, and the
    objects live in a store. *)
Definition Ref : Type := nat.
Definition Store : Type := Ref -> IHeftConfigurationJsonPluginSpecifier.

Definition store (h : Store) (r : Ref) (v : IHeftConfigurationJsonPluginSpecifier)
  : Store :=
  fun x => if Nat.eqb x r then v else h x.

Inductive HeftEventKind : Type := copyFiles | deleteFiles | runScript | nodeService.

Record IHeftConfigurationJsonEventSpecifier : Type := {
  eventKind : HeftEventKind;
  eventOptions : option Json
}.

Record IHeftConfigurationJsonTaskSpecifier : Type := {
  taskDependencies : option (list string);
  taskEvent : option IHeftConfigurationJsonEventSpecifier;
  taskPlugin : option Ref
}.

(** [IHeftConfigurationJsonTasks] and [IHeftConfigurationJsonPhases] are
    objects used as maps; the lists hold their properties in the order
    [Object.values] enumerates them. *)
Record IHeftConfigurationJsonPhaseSpecifier : Type := {
  phaseDescription : option string;
  phaseDependencies : option (list string);
  cleanFiles : option (list Json);
  tasksByName : option (list (string * IHeftConfigurationJsonTaskSpecifier))
}.

Record IHeftConfigurationJson : Type := {
  heftPlugins : option (list Ref);
  phasesByName : option (list (string * IHeftConfigurationJsonPhaseSpecifier))
}.

(** [x || []] and [Object.values(x || {})] *)
Definition orEmpty {A : Type} (x : option (list A)) : list A :=
  match x with
  | Some l => l
  | None => []
  end.

(** The [pluginSpecifiers] array after the two nested loops: the heft
    plugins, then the task plugins of every phase, phase by phase. *)
Definition pluginSpecifiersOf (configurationFile : IHeftConfigurationJson)
  : list Ref :=
  orEmpty (heftPlugins configurationFile)
  ++ flat_map
       (fun phase : string * IHeftConfigurationJsonPhaseSpecifier =>
          flat_map
            (fun task : string * IHeftConfigurationJsonTaskSpecifier =>
               match taskPlugin (snd task) with
               | Some ref => [ref]
               | None => []
               end)
            (orEmpty (tasksByName (snd phase))))
       (orEmpty (phasesByName configurationFile)).

(** [getPropertyOriginalValue({ parentObject, propertyName: 'pluginPackage' })]
    of the loader: what the file said before the path was resolved, looked
    up by the object. *)
Variable getPropertyOriginalValue : Ref -> option string.

(** The body of [for (const pluginSpecifier of pluginSpecifiers)]. *)
Definition restoreName (h : Store) (pluginSpecifier : Ref) : Store :=
  let pluginPackageName := getPropertyOriginalValue pluginSpecifier in
  let old := h pluginSpecifier in
  store h pluginSpecifier
    {| pluginPackage := pluginPackageName;
       pluginPackageRoot := pluginPackage old;
       pluginName := pluginName old;
       options := options old |}.

(** [loadHeftConfigurationFileForProjectAsync], from the configuration the
    loader returned on: the store of plugin specifiers after the last loop
    (the configuration object itself is returned as it is). *)
Definition loadHeftConfigurationFileForProjectAsync
    (h : Store) (configurationFile : IHeftConfigurationJson) : Store :=
  fold_left restoreName (pluginSpecifiersOf configurationFile) h.

End Configuration.

Arguments pluginPackage {Json} _.
Arguments pluginPackageRoot {Json} _.
Arguments pluginName {Json} _.
Arguments options {Json} _.
Arguments store {Json} h r v.
Arguments taskPlugin {Json} _.
Arguments tasksByName {Json} _.
Arguments heftPlugins {Json} _.
Arguments phasesByName {Json} _.
Arguments pluginSpecifiersOf {Json} configurationFile.
Arguments restoreName {Json} getPropertyOriginalValue h pluginSpecifier.
Arguments loadHeftConfigurationFileForProjectAsync {Json} getPropertyOriginalValue h
  configurationFile.

End CoreConfigFiles.

(** The [config/heft.json] with a build and a test phase: six task
    plugins at the addresses 0 to 5, no heft plugin. *)
Definition heftJsonTask (ref : nat)
  : CoreConfigFiles.IHeftConfigurationJsonTaskSpecifier unit :=
  {| CoreConfigFiles.taskDependencies := None;
     CoreConfigFiles.taskEvent := None;
     CoreConfigFiles.taskPlugin := Some ref |}.

Definition heftJson : CoreConfigFiles.IHeftConfigurationJson unit :=
  {| CoreConfigFiles.heftPlugins := None;
     CoreConfigFiles.phasesByName :=
       Some [ ("build"%string,
               {| CoreConfigFiles.phaseDescription := None;
                  CoreConfigFiles.phaseDependencies := None;
                  CoreConfigFiles.cleanFiles := Some [tt; tt; tt; tt];
                  CoreConfigFiles.tasksByName :=
                    Some [ ("typescript"%string, heftJsonTask 0);
                           ("lint"%string,
                            {| CoreConfigFiles.taskDependencies := Some ["typescript"%string];
                               CoreConfigFiles.taskEvent := None;
                               CoreConfigFiles.taskPlugin := Some 1%nat |});
                           ("api-extractor"%string,
                            {| CoreConfigFiles.taskDependencies := Some ["typescript"%string];
                               CoreConfigFiles.taskEvent := None;
                               CoreConfigFiles.taskPlugin := Some 2%nat |}) ] |});
              ("test"%string,
               {| CoreConfigFiles.phaseDescription := None;
                  CoreConfigFiles.phaseDependencies := Some ["build"%string];
                  CoreConfigFiles.cleanFiles := None;
                  CoreConfigFiles.tasksByName :=
                    Some [ ("jest"%string, heftJsonTask 3);
                           ("example-plugin-01"%string, heftJsonTask 4);
                           ("example-plugin-02"%string, heftJsonTask 5) ] |}) ] |}.

Definition heftJsonNames (ref : nat) : option string :=
  nth_error [ "@rushstack/heft-typescript-plugin"; "@rushstack/heft-lint-plugin";
              "@rushstack/heft-api-extractor-plugin"; "@rushstack/heft-jest-plugin";
              "heft-example-plugin-01"; "heft-example-plugin-02" ]%string ref.

(** The store as the loader leaves it: every [pluginPackage] resolved to
    a folder. *)
Definition heftJsonResolved : CoreConfigFiles.Store unit :=
  fun ref =>
    {| CoreConfigFiles.pluginPackage :=
         option_map (fun n => ("/repo/node_modules/" ++ n)%string) (heftJsonNames ref);
       CoreConfigFiles.pluginPackageRoot := None;
       CoreConfigFiles.pluginName := None;
       CoreConfigFiles.options := None |}.


(** The header line of the phase block. *)
Definition phaseHeader : Line := [text "BY PHASE:"].

(* ================================================================== *)
(** ** The sums and quotients in binary64                              *)
(* ================================================================== *)

(** The definitions above compute with exact rationals.  Comparisons of
    timestamps come out the same in binary64, but the code rounds every
    difference, sum, product and quotient to the nearest double.  This
    module replays the arithmetic of the summary on doubles, for records
    given by their two timestamps. *)
Module Binary64.
Import PrimFloat.

(** [stopwatch.duration], in seconds, as [Stopwatch.duration] above *)
Definition duration (r : float * float) : float :=
  div (sub (snd r) (fst r)) 1000%float.

(** [workDuration] after the first loop *)
Definition workDuration (rows : list (float * float)) : float :=
  fold_left (fun w r => add w (duration r)) rows 0%float.

(** [allStart] and [allEnd] after the first loop *)
Definition allStart (rows : list (float * float)) : float :=
  fold_left (fun a r => if ltb (fst r) a then fst r else a) rows infinity.

Definition allEnd (rows : list (float * float)) : float :=
  fold_left (fun a r => if ltb a (snd r) then snd r else a) rows neg_infinity.

(** [allDurationSeconds] *)
Definition allDurationSeconds (rows : list (float * float)) : float :=
  div (sub (allEnd rows) (allStart rows)) 1000%float.

(** [workDuration / allDurationSeconds] *)
Definition avgParallelism (rows : list (float * float)) : float :=
  div (workDuration rows) (allDurationSeconds rows).

End Binary64.

(** Two operations one after the other, 1000 ms to 1100 ms and 1100 ms to
    1300 ms, and their timestamps as doubles. *)
Definition resultBackToBack : IExecutionResult :=
  {| operationResults :=
       [ sampleEntry "A" (Some phaseBuild) (Some 1000) (Some 1100) Success;
         sampleEntry "B" (Some phaseBuild) (Some 1100) (Some 1300) Success ] |}.

Definition rowsBackToBack64 : list (PrimFloat.float * PrimFloat.float) :=
  [(1000%float, 1100%float); (1100%float, 1300%float)].

(** The layout of [resultInstant] on a terminal of 40 columns, its only
    record and its summary. *)
Definition layoutInstant : Layout := layoutOf (Some 40%nat) (gather resultInstant).
Definition summaryInstant : Summary :=
  summaryOf (gather resultInstant) layoutInstant
    (busyCpusOf (sortByStart (data (gather resultInstant)))).

(* ================================================================== *)
(** * Properties                                                       *)
(* ================================================================== *)

(** ** Strings and repeat counts *)

Lemma length_app_string (a b : string) :
  String.length (a ++ b) = (String.length a + String.length b)%nat.
Proof.
  induction a as [|c a IH]; simpl; [reflexivity | now rewrite IH].
Qed.

Lemma length_repeatNat (s : string) (n : nat) :
  String.length (JS.repeatNat s n) = (n * String.length s)%nat.
Proof.
  induction n as [|n IH]; simpl; [reflexivity|].
  now rewrite length_app_string, IH.
Qed.

(** A count that is the integer [z] is taken as [z]. *)
Lemma repeatCount_integer (q : Q) (z : Z) :
  q == inject_Z z ->
  JS.repeatCount (JS.Fin q) =
    if (z <? 0)%Z then JS.Throw JS.RangeError else JS.Ok (Z.to_nat z).
Proof.
  intros H. unfold JS.repeatCount.
  assert (E : (Qnum q ÷ Z.pos (Qden q))%Z = z).
  { unfold Qeq in H. simpl in H. rewrite Z.mul_1_r in H. rewrite H.
    apply Z.quot_mul. discriminate. }
  now rewrite E.
Qed.

Lemma repeat_integer (s : string) (q : Q) (z : Z) :
  q == inject_Z z -> (0 <= z)%Z ->
  JS.repeat s (JS.Fin q) = JS.Ok (JS.repeatNat s (Z.to_nat z)).
Proof.
  intros H Hz. unfold JS.repeat. rewrite (repeatCount_integer q z H).
  destruct (Z.ltb_spec z 0); [lia | reflexivity].
Qed.

Lemma repeat_negative (s : string) (q : Q) (z : Z) :
  q == inject_Z z -> (z < 0)%Z ->
  JS.repeat s (JS.Fin q) = JS.Throw JS.RangeError.
Proof.
  intros H Hz. unfold JS.repeat. rewrite (repeatCount_integer q z H).
  destruct (Z.ltb_spec z 0); [reflexivity | lia].
Qed.

Lemma symbol_length (st : OperationStatus) :
  String.length (TIMELINE_CHART_SYMBOLS st) = 1%nat.
Proof. destruct st; reflexivity. Qed.

(** ** The chart of one row *)

(** The characters of a chart depend on the status through its symbol
    only. *)
Lemma uncoloured_chart (st1 st2 : OperationStatus) (a b : JS.number) (w : Z) :
  TIMELINE_CHART_SYMBOLS st1 = TIMELINE_CHART_SYMBOLS st2 ->
  uncoloured (chart st1 a b w) = uncoloured (chart st2 a b w).
Proof.
  intros H. unfold chart, uncoloured. rewrite H.
  repeat match goal with
         | |- context [JS.repeat ?s ?c] => destruct (JS.repeat s c); simpl
         end; reflexivity.
Qed.

(** C10: the symbol table maps Skipped, FromCache and NoOp to the one
    symbol '%' and SuccessWithWarning and Failure to the one symbol '!', so
    two charts of statuses of one group show the same characters whatever
    the column range; what tells the statuses apart, where anything does,
    is the colour: SuccessWithWarning is yellow and Failure is red (Skipped
    and FromCache share green, NoOp is gray). *)
Theorem chart_symbols_collapse :
  (TIMELINE_CHART_SYMBOLS Skipped = "%"%string
   /\ TIMELINE_CHART_SYMBOLS FromCache = "%"%string
   /\ TIMELINE_CHART_SYMBOLS NoOp = "%"%string)
  /\ (TIMELINE_CHART_SYMBOLS SuccessWithWarning = "!"%string
      /\ TIMELINE_CHART_SYMBOLS Failure = "!"%string)
  /\ (forall startIdx endIdx w,
        uncoloured (chart Skipped startIdx endIdx w)
          = uncoloured (chart FromCache startIdx endIdx w)
        /\ uncoloured (chart FromCache startIdx endIdx w)
             = uncoloured (chart NoOp startIdx endIdx w)
        /\ uncoloured (chart SuccessWithWarning startIdx endIdx w)
             = uncoloured (chart Failure startIdx endIdx w))
  /\ (TIMELINE_CHART_COLORIZER SuccessWithWarning = yellow
      /\ TIMELINE_CHART_COLORIZER Failure = red
      /\ TIMELINE_CHART_COLORIZER SuccessWithWarning
           <> TIMELINE_CHART_COLORIZER Failure)
  /\ (TIMELINE_CHART_COLORIZER Skipped = green
      /\ TIMELINE_CHART_COLORIZER FromCache = green
      /\ TIMELINE_CHART_COLORIZER NoOp = gray).
Proof.
  repeat split; try reflexivity; try discriminate;
    apply uncoloured_chart; reflexivity.
Qed.

(** The chart for an integer column range inside [0, chartWidth]. *)
Lemma chart_in_range (st : OperationStatus) (s e w : Z) :
  (0 <= s)%Z -> (s <= e)%Z -> (e <= w)%Z ->
  chart st (JS.ofZ s) (JS.ofZ e) w =
    JS.Ok [ paint gray (JS.repeatNat "-" (Z.to_nat s));
            paint (TIMELINE_CHART_COLORIZER st)
                  (JS.repeatNat (TIMELINE_CHART_SYMBOLS st) (Z.to_nat (e - s + 1)));
            paint gray (JS.repeatNat "-" (Z.to_nat (w - e))) ].
Proof.
  intros Hs Hse Hew. unfold chart, JS.ofZ.
  rewrite (repeat_integer "-" (inject_Z s) s) by (reflexivity || lia).
  simpl JS.bind.
  rewrite (repeat_integer (TIMELINE_CHART_SYMBOLS st) _ (e - s + 1)%Z).
  2:{ unfold Z.sub. rewrite !inject_Z_plus, inject_Z_opp. reflexivity. }
  2: lia.
  simpl JS.bind.
  rewrite (repeat_integer "-" _ (w - e)%Z).
  2:{ unfold Z.sub. rewrite inject_Z_plus, inject_Z_opp. reflexivity. }
  2: lia.
  reflexivity.
Qed.


(** ** The first loop *)

Lemma timestamps_kept (entry : Operation.t * IOperationExecutionResult) :
  kept entry = true ->
  runnerSilent (fst entry) = false
  /\ timestamps (stopwatch (snd entry))
     = Some (startTime (recordOf entry), endTime (recordOf entry)).
Proof.
  unfold kept, timestamps, recordOf, hasTimestamp, JS.Qzero. simpl.
  destruct (runnerSilent (fst entry)); simpl; [discriminate|].
  destruct (Stopwatch.startTime _) as [s|]; simpl; [|discriminate].
  destruct (Stopwatch.endTime _) as [e|]; simpl.
  - intros H. rewrite H. split; reflexivity.
  - rewrite andb_false_r. discriminate.
Qed.

Lemma timestamps_dropped (entry : Operation.t * IOperationExecutionResult) :
  kept entry = false ->
  runnerSilent (fst entry) = true \/ timestamps (stopwatch (snd entry)) = None.
Proof.
  unfold kept, timestamps, hasTimestamp, JS.Qzero.
  destruct (runnerSilent (fst entry)); simpl; [now left|]. right.
  destruct (Stopwatch.startTime _) as [s|]; [|reflexivity].
  destruct (Stopwatch.endTime _) as [e|]; [|reflexivity].
  simpl in H. now rewrite H.
Qed.

Lemma gatherStep_dropped (g : Gathered) entry :
  kept entry = false -> gatherStep g entry = g.
Proof.
  intros H. destruct entry as [op res].
  destruct (timestamps_dropped _ H) as [Hs|Ht]; simpl in *; unfold gatherStep.
  - now rewrite Hs.
  - rewrite Ht. now destruct (runnerSilent op).
Qed.

Lemma gatherStep_kept (g : Gathered) entry :
  kept entry = true ->
  gatherStep g entry =
  {| longestNameLength := Nat.max (longestNameLength g) (nameLengthOf (fst entry));
     longestDurationLength :=
       Nat.max (longestDurationLength g)
               (String.length (durationString (recordOf entry)));
     allEnd := if JS.gt (JS.Fin (endTime (recordOf entry))) (allEnd g)
               then JS.Fin (endTime (recordOf entry)) else allEnd g;
     allStart := if JS.lt (JS.Fin (startTime (recordOf entry))) (allStart g)
                 then JS.Fin (startTime (recordOf entry)) else allStart g;
     workDuration := workDuration g + durationOf entry;
     durationByPhase :=
       match Operation.associatedPhase (fst entry) with
       | Some phase =>
           phaseSet (durationByPhase g) phase
             (orZero (phaseGet (durationByPhase g) phase) + durationOf entry)
       | None => durationByPhase g
       end;
     data := data g ++ [recordOf entry] |}.
Proof.
  intros H. destruct (timestamps_kept _ H) as [Hs Ht].
  destruct entry as [op res]. simpl in *. unfold gatherStep.
  rewrite Hs, Ht. f_equal.
  - destruct (Nat.ltb_spec (longestNameLength g) (nameLengthOf op)); lia.
  - unfold recordOf, durationOf; simpl.
    match goal with |- context [(?a <? ?b)%nat] => destruct (Nat.ltb_spec a b) end; lia.
Qed.

Lemma gather_snoc ops entry :
  gather {| operationResults := ops ++ [entry] |}
  = gatherStep (gather {| operationResults := ops |}) entry.
Proof. unfold gather; simpl. now rewrite fold_left_app. Qed.

Lemma filter_snoc {A} (f : A -> bool) l x :
  filter f (l ++ [x]) = if f x then filter f l ++ [x] else filter f l.
Proof.
  rewrite filter_app. simpl. destruct (f x); [reflexivity | apply app_nil_r].
Qed.

Lemma sumQ_snoc (l : list Q) (x : Q) : sumQ (l ++ [x]) == sumQ l + x.
Proof.
  induction l as [|y l IH]; simpl.
  - ring.
  - rewrite IH. ring.
Qed.

Lemma list_max_snoc (l : list nat) (x : nat) :
  list_max (l ++ [x]) = Nat.max (list_max l) x.
Proof. rewrite list_max_app. simpl. lia. Qed.

Lemma leastStart_snoc rows m r :
  leastStart rows m ->
  leastStart (rows ++ [r])
    (if JS.lt (JS.Fin (startTime r)) (JS.Fin m) then startTime r else m).
Proof.
  intros [Hin Hlow]. simpl.
  destruct (Qle_bool m (startTime r)) eqn:E; simpl.
  - apply Qle_bool_iff in E. split.
    + rewrite map_app. apply in_or_app. now left.
    + intros x Hx. apply in_app_or in Hx. destruct Hx as [Hx|[<-|[]]]; auto.
  - assert (startTime r < m).
    { apply Qnot_le_lt. intros C. apply Qle_bool_iff in C. congruence. }
    split.
    + rewrite map_app. apply in_or_app. right. now left.
    + intros x Hx. apply in_app_or in Hx. destruct Hx as [Hx|[<-|[]]].
      * specialize (Hlow x Hx). lra.
      * lra.
Qed.

Lemma greatestEnd_snoc rows m r :
  greatestEnd rows m ->
  greatestEnd (rows ++ [r])
    (if JS.gt (JS.Fin (endTime r)) (JS.Fin m) then endTime r else m).
Proof.
  intros [Hin Hup]. simpl.
  destruct (Qle_bool (endTime r) m) eqn:E; simpl.
  - apply Qle_bool_iff in E. split.
    + rewrite map_app. apply in_or_app. now left.
    + intros x Hx. apply in_app_or in Hx. destruct Hx as [Hx|[<-|[]]]; auto.
  - assert (m < endTime r).
    { apply Qnot_le_lt. intros C. apply Qle_bool_iff in C. congruence. }
    split.
    + rewrite map_app. apply in_or_app. right. now left.
    + intros x Hx. apply in_app_or in Hx. destruct Hx as [Hx|[<-|[]]].
      * specialize (Hup x Hx). lra.
      * lra.
Qed.

(** What the first loop leaves in its variables, in terms of the entries
    it keeps. *)
Lemma gather_spec (ops : list (Operation.t * IOperationExecutionResult)) :
  let g := gather {| operationResults := ops |} in
  let es := filter kept ops in
  data g = map recordOf es
  /\ longestNameLength g = list_max (map (fun e => nameLengthOf (fst e)) es)
  /\ longestDurationLength g
     = list_max (map (fun e => String.length (durationString (recordOf e))) es)
  /\ workDuration g == sumQ (map durationOf es)
  /\ (es = [] -> allStart g = JS.PosInf /\ allEnd g = JS.NegInf)
  /\ (es <> [] ->
      exists a b, allStart g = JS.Fin a /\ allEnd g = JS.Fin b
                  /\ leastStart (data g) a /\ greatestEnd (data g) b).
Proof.
  induction ops as [|entry ops IH] using rev_ind.
  - simpl. repeat split; try reflexivity. intros H; now elim H.
  - cbv zeta in *. rewrite gather_snoc, filter_snoc.
    destruct IH as (Hd & Hn & Hl & Hw & He & Hne).
    destruct (kept entry) eqn:K.
    + rewrite (gatherStep_kept _ _ K).
      cbn [data longestNameLength longestDurationLength workDuration
           allStart allEnd].
      rewrite !map_app. cbn [map].
      rewrite !list_max_snoc, sumQ_snoc.
      refine (conj _ (conj _ (conj _ (conj _ (conj _ _))))).
      * now rewrite Hd.
      * now rewrite Hn.
      * now rewrite Hl.
      * now rewrite Hw.
      * intros C. destruct (filter kept ops); discriminate.
      * intros _. destruct (filter kept ops) as [|e0 es0] eqn:F.
        -- destruct (He eq_refl) as [Ha Hb]. rewrite Ha, Hb. simpl.
           exists (startTime (recordOf entry)), (endTime (recordOf entry)).
           rewrite Hd. simpl. repeat split; try (now left).
           ++ intros r [<-|[]]. apply Qle_refl.
           ++ intros r [<-|[]]. apply Qle_refl.
        -- destruct Hne as (a & b & Ha & Hb & Hls & Hge); [discriminate|].
           rewrite Ha, Hb.
           exists (if JS.lt (JS.Fin (startTime (recordOf entry))) (JS.Fin a)
                   then startTime (recordOf entry) else a),
                  (if JS.gt (JS.Fin (endTime (recordOf entry))) (JS.Fin b)
                   then endTime (recordOf entry) else b).
           split; [now destruct (JS.lt _ _)|].
           split; [now destruct (JS.gt _ _)|].
           split; [now apply leastStart_snoc | now apply greatestEnd_snoc].
    + rewrite (gatherStep_dropped _ _ K).
      refine (conj Hd (conj Hn (conj Hl (conj Hw (conj He Hne))))).
Qed.

(** C4, as worded: an entry that lacks only its end timestamp, and one
    whose start timestamp is 0, are not silent and do not lack both
    timestamps, and yet the first loop makes no record of them. *)
Lemma filter_as_worded_counterexample :
  (droppedAsWorded entryUnfinished = false
   /\ data (gather {| operationResults := [entryUnfinished] |}) = [])
  /\ (droppedAsWorded entryFromZero = false
      /\ data (gather {| operationResults := [entryFromZero] |}) = []).
Proof. repeat split. Qed.

(** C4, amended: the first loop drops exactly the entries whose runner is
    marked silent or whose stopwatch has no start or no end timestamp (an
    undefined or zero one); each of the others, in the order of the result
    map, adds one record to [data], its name length and duration length to
    the two maxima, its start and end to [allStart] and [allEnd], and its
    duration to [workDuration]. *)
Theorem gather_keeps_timed_entries (result : IExecutionResult) :
  let g := gather result in
  let es := filter kept (operationResults result) in
  (forall entry,
      kept entry = false <->
      (runnerSilent (fst entry) = true
       \/ JS.truthyOpt (Stopwatch.startTime (stopwatch (snd entry))) = false
       \/ JS.truthyOpt (Stopwatch.endTime (stopwatch (snd entry))) = false))
  /\ (forall g0 entry, kept entry = false -> gatherStep g0 entry = g0)
  /\ (forall g0 entry, kept entry = true ->
        data (gatherStep g0 entry) = data g0 ++ [recordOf entry])
  /\ data g = map recordOf es
  /\ longestNameLength g = list_max (map (fun e => nameLengthOf (fst e)) es)
  /\ longestDurationLength g
     = list_max (map (fun e => String.length (durationString (recordOf e))) es)
  /\ workDuration g == sumQ (map durationOf es)
  /\ (es = [] -> allStart g = JS.PosInf /\ allEnd g = JS.NegInf)
  /\ (es <> [] ->
      exists a b, allStart g = JS.Fin a /\ allEnd g = JS.Fin b
                  /\ leastStart (data g) a /\ greatestEnd (data g) b).
Proof.
  destruct result as [ops]. cbv zeta. cbn [operationResults].
  split; [|split; [|split]].
  - intros entry. unfold kept, hasTimestamp, JS.truthyOpt, JS.Qzero.
    destruct (runnerSilent (fst entry)); simpl.
    + split; auto.
    + destruct (Stopwatch.startTime _) as [s|], (Stopwatch.endTime _) as [e|];
        simpl; rewrite ?andb_false_r, ?andb_true_r.
      * destruct (Qeq_bool s 0), (Qeq_bool e 0); simpl; intuition discriminate.
      * intuition discriminate.
      * intuition discriminate.
      * intuition discriminate.
  - apply gatherStep_dropped.
  - intros g0 entry K. now rewrite (gatherStep_kept _ _ K).
  - apply (gather_spec ops).
Qed.

(** ** Sorting *)

Lemma insertByStart_perm r l : Permutation (insertByStart r l) (r :: l).
Proof.
  induction l as [|x l IH]; simpl; [reflexivity|].
  destruct (Qle_bool (startTime r) (startTime x)); [reflexivity|].
  rewrite IH. apply perm_swap.
Qed.

Lemma sortByStart_perm l : Permutation (sortByStart l) l.
Proof.
  induction l as [|r l IH]; simpl; [reflexivity|].
  rewrite insertByStart_perm. now constructor.
Qed.

Lemma sortByStart_In l r : In r (sortByStart l) <-> In r l.
Proof.
  split; apply Permutation_in;
    [apply sortByStart_perm | symmetry; apply sortByStart_perm].
Qed.

(** ** The second loop *)

(** When every row can be drawn the loop writes one line per record, in
    order, and leaves in [busyCpus] what the tracking alone computes. *)
Lemma printRows_ok ly rows :
  (forall r, In r rows -> exists line, row ly r = JS.Ok line) ->
  forall busy out,
  exists lines,
    printRows ly rows busy out = (fold_left trackBusy rows busy, out ++ lines, None)
    /\ Forall2 (fun r line => row ly r = JS.Ok line) rows lines.
Proof.
  induction rows as [|r rows IH]; intros Hall busy out.
  - exists []. simpl. rewrite app_nil_r. split; [reflexivity | constructor].
  - destruct (Hall r (or_introl eq_refl)) as [line Hline].
    destruct (IH (fun x Hx => Hall x (or_intror Hx)) (trackBusy busy r) (out ++ [line]))
      as (lines & Hp & Hf).
    exists (line :: lines). simpl. rewrite Hline, Hp, <- app_assoc. simpl.
    split; [reflexivity | now constructor].
Qed.

(** The tracking of busy CPUs does not depend on the drawing. *)
Lemma printRows_busy ly rows busy out busy' out' :
  printRows ly rows busy out = (busy', out', None) ->
  busy' = fold_left trackBusy rows busy.
Proof.
  revert busy out. induction rows as [|r rows IH]; simpl; intros busy out H.
  - now inversion H.
  - destruct (row ly r); [eauto | discriminate].
Qed.

(** A run in which every row can be drawn writes the whole report. *)
Lemma printTimeline_completes consoleWidth result :
  let g := gather result in
  let ly := layoutOf consoleWidth g in
  let rule : Line := [text (JS.repeatNat "=" (maxWidth ly))] in
  (forall r, In r (sortByStart (data g)) -> exists line, row ly r = JS.Ok line) ->
  exists lines,
    _printTimeline consoleWidth result
    = {| written :=
           ([[text ""]; rule] ++ lines) ++ [rule]
             ++ summaryLines (maxWidth ly)
                  (summaryOf g ly (busyCpusOf (sortByStart (data g))))
             ++ phaseSection (durationByPhase g)
             ++ [[text ""]];
         thrown := None |}
    /\ Forall2 (fun r line => row ly r = JS.Ok line) (sortByStart (data g)) lines.
Proof.
  cbv zeta. intros Hrows. unfold _printTimeline. cbv zeta.
  match goal with
  | |- context [printRows ?a ?b ?c ?d] =>
      destruct (printRows_ok a b Hrows c d) as (lines & Hp & Hf); rewrite Hp
  end.
  exists lines. split; [reflexivity | exact Hf].
Qed.

(** ** A wall clock of zero length *)



Lemma allDuration_kept consoleWidth ops a b :
  allStart (gather {| operationResults := ops |}) = JS.Fin a ->
  allEnd (gather {| operationResults := ops |}) = JS.Fin b ->
  allDuration (layoutOf consoleWidth (gather {| operationResults := ops |}))
  = JS.Fin (b + - a).
Proof. intros Ha Hb. unfold layoutOf; simpl. now rewrite Ha, Hb. Qed.


(** ** A chart width below zero *)

(** With a chart width of -2 or less no integer column range leaves the
    three repeat counts all non-negative. *)
Lemma chart_too_narrow (st : OperationStatus) (i j w : Z) :
  (w <= -2)%Z -> chart st (JS.ofZ i) (JS.ofZ j) w = JS.Throw JS.RangeError.
Proof.
  intros Hw. unfold chart, JS.ofZ.
  destruct (Z.ltb_spec i 0) as [Hi|Hi].
  - now rewrite (repeat_negative "-" (inject_Z i) i) by (reflexivity || lia).
  - rewrite (repeat_integer "-" (inject_Z i) i) by (reflexivity || lia).
    simpl JS.bind.
    assert (E : inject_Z j + - inject_Z i + inject_Z 1 == inject_Z (j - i + 1)).
    { unfold Z.sub. rewrite !inject_Z_plus, inject_Z_opp. reflexivity. }
    destruct (Z.ltb_spec (j - i + 1) 0) as [Hj|Hj].
    + now rewrite (repeat_negative _ _ (j - i + 1)%Z E Hj).
    + rewrite (repeat_integer _ _ (j - i + 1)%Z E Hj). simpl JS.bind.
      rewrite (repeat_negative "-" _ (w - j)%Z); [reflexivity| |lia].
      unfold Z.sub. rewrite inject_Z_plus, inject_Z_opp. reflexivity.
Qed.

Lemma columnIndex_finite (t a : Q) (w : Z) (d : Q) :
  ~ d == 0 ->
  columnIndex t (JS.Fin a) w (JS.Fin d)
  = JS.ofZ (Qfloor (((t + - a) * inject_Z w) / d)).
Proof.
  intros Hd. unfold columnIndex, JS.sub, JS.mul, JS.div, JS.ofZ, JS.Qzero. simpl.
  destruct (Qeq_bool d 0) eqn:E; [|reflexivity].
  apply Qeq_bool_eq in E. contradiction.
Qed.

Lemma row_too_narrow (ly : Layout) (r : ITimelineRecord) (a d : Q) :
  chartStart ly = JS.Fin a -> allDuration ly = JS.Fin d -> ~ d == 0 ->
  (chartWidth ly <= -2)%Z ->
  row ly r = JS.Throw JS.RangeError.
Proof.
  intros Ha Hd Hnz Hw. unfold row.
  rewrite Ha, Hd, !columnIndex_finite by exact Hnz.
  now rewrite chart_too_narrow.
Qed.

Lemma sortByStart_nonempty l : l <> [] -> sortByStart l <> [].
Proof.
  intros H C. apply H.
  apply Permutation_nil. rewrite <- C. apply sortByStart_perm.
Qed.

(** C3, what the code does: once names and durations leave a chart width
    of -2 or less, and the wall clock is not of zero length, the first row
    already asks [repeat] for a negative count; the run ends there with a
    [RangeError], after the opening blank line and rule. *)
Theorem narrow_chart_throws (consoleWidth : option nat) (result : IExecutionResult) :
  let g := gather result in
  let ly := layoutOf consoleWidth g in
  data g <> [] ->
  JS.isZero (allDuration ly) = false ->
  (chartWidth ly <= -2)%Z ->
  _printTimeline consoleWidth result
  = {| written := [[text ""]; [text (JS.repeatNat "=" (maxWidth ly))]];
       thrown := Some JS.RangeError |}.
Proof.
  destruct result as [ops]. cbv zeta. intros Hne Hnz Hw.
  destruct (gather_spec ops) as (Hd & _ & _ & _ & _ & Hsome).
  cbv zeta in Hsome.
  destruct Hsome as (a & b & Ha & Hb & _).
  { intros C. rewrite C in Hd. simpl in Hd. now apply Hne. }
  pose proof (allDuration_kept consoleWidth ops a b Ha Hb) as Hdur.
  rewrite Hdur in Hnz. simpl in Hnz. apply Qeq_bool_neq in Hnz.
  unfold _printTimeline. cbv zeta.
  pose proof (sortByStart_nonempty _ Hne) as Hs.
  destruct (sortByStart (data (gather {| operationResults := ops |}))) as [|r rows];
    [now elim Hs|].
  cbn [printRows].
  rewrite (row_too_narrow _ r a (b + - a)); auto.
Qed.

(** A terminal of 40 columns and names of 36 characters. *)
Lemma narrow_chart_throws_witness :
  chartWidth (layoutOf (Some 40%nat) (gather resultLongNames)) = (-3)%Z
  /\ _printTimeline (Some 40%nat) resultLongNames
     = {| written := [[text ""]; [text (JS.repeatNat "=" 40)]];
          thrown := Some JS.RangeError |}.
Proof.
  split; [reflexivity|].
  apply (narrow_chart_throws (Some 40%nat) resultLongNames).
  - discriminate.
  - reflexivity.
  - vm_compute. discriminate.
Defined.

(** ** No eligible operation *)

Lemma gather_none_kept ops :
  filter kept ops = [] -> gather {| operationResults := ops |} = gatherInit.
Proof.
  induction ops as [|entry ops IH] using rev_ind; [reflexivity|].
  rewrite filter_snoc, gather_snoc.
  destruct (kept entry) eqn:K.
  - intros C. destruct (filter kept ops); discriminate.
  - intros H. now rewrite (gatherStep_dropped _ _ K), IH.
Qed.

(** C6, what the code does: with no eligible operation the run throws
    nothing and writes no row: a blank line, the two rules, the legend and
    summary lines, a blank line.  Total Work is 0, Max Parallelism Used is 0
    and Avg Parallelism Used is 0 / -Infinity = 0; but [allStart] and
    [allEnd] still hold their initial Infinity and -Infinity, so that Wall
    Clock is -Infinity, which is not finite, and is printed as
    "Wall Clock: -Infinitys". *)
Theorem no_eligible_operations (consoleWidth : option nat) (result : IExecutionResult) :
  filter kept (operationResults result) = [] ->
  let w := maxWidthOf consoleWidth in
  let rule : Line := [text (JS.repeatNat "=" w)] in
  let sm := {| totalWork := JS.Fin 0; wallClock := JS.NegInf;
               usedCpus := 0; avgParallelism := JS.Fin 0 |} in
  _printTimeline consoleWidth result
  = {| written := [[text ""]; rule; rule] ++ summaryLines w sm ++ [[text ""]];
       thrown := None |}
  /\ JS.isFinite (totalWork sm) = true
  /\ JS.isFinite (avgParallelism sm) = true
  /\ JS.isFinite (wallClock sm) = false
  /\ nth_error (summaryLines w sm) 1
     = Some [text (legend1 ++ JS.padStart "Wall Clock: -Infinitys"
                                 (Z.of_nat w - Z.of_nat (String.length legend1)))].
Proof.
  destruct result as [ops]. cbn [operationResults]. intros H. cbv zeta.
  unfold _printTimeline. rewrite (gather_none_kept ops H).
  repeat split.
Qed.

(** Two operations, one silent and one blocked before it started, on a
    terminal that reports no width. *)
Lemma no_eligible_operations_witness :
  written (_printTimeline None resultNoneEligible)
  = [ [text ""];
      [text (JS.repeatNat "=" 109)];
      [text (JS.repeatNat "=" 109)];
      [text (legend0 ++ JS.padStart "Total Work: 0.0s" 102)];
      [text (legend1 ++ JS.padStart "Wall Clock: -Infinitys" 49)];
      [text (JS.padStart "Max Parallelism Used: 0" 109)];
      [text (JS.padStart "Avg Parallelism Used: 0.0" 109)];
      [text ""] ]
  /\ thrown (_printTimeline None resultNoneEligible) = None.
Proof.
  destruct (no_eligible_operations None resultNoneEligible eq_refl) as [E _].
  rewrite E. split; reflexivity.
Defined.

(** ** The [createOperations] waterfall *)

Section WaterfallFacts.

Variables Operations Ctx : Type.

Lemma registerAll_from (ts : list (Hooks.Tap Operations Ctx)) hook :
  Hooks.taps
    (fold_left (fun hook t => Hooks.tapPromise hook (Hooks.tapName t) (Hooks.tapFn t))
               ts hook)
  = Hooks.taps hook ++ ts.
Proof.
  revert hook. induction ts as [|t ts IH]; intros hook; simpl.
  - now rewrite app_nil_r.
  - rewrite IH. simpl. rewrite <- app_assoc. now destruct t.
Qed.

Lemma registerAll_taps (ts : list (Hooks.Tap Operations Ctx)) :
  Hooks.taps (Hooks.registerAll ts) = ts.
Proof. unfold Hooks.registerAll. now rewrite registerAll_from. Qed.

(** The dispatch loop, from any handler index and any current value. *)
Lemma dispatch_spec (hs : list (Hooks.Tap Operations Ctx)) :
  forall (idx : nat) (cur : Operations) (ctx : Ctx),
  let calls := fst (Hooks.dispatch hs idx cur ctx) in
  let res := snd (Hooks.dispatch hs idx cur ctx) in
  map Hooks.callee calls = seq idx (List.length calls)
  /\ (List.length calls <= List.length hs)%nat
  /\ Forall (fun c => Hooks.givenContext c = ctx) calls
  /\ (hs <> [] -> exists c rest, calls = c :: rest /\ Hooks.givenOperations c = cur)
  /\ (forall i c c' h,
        nth_error calls i = Some c -> nth_error calls (S i) = Some c' ->
        nth_error hs i = Some h ->
        Hooks.tapFn h (Hooks.givenOperations c) ctx = JS.Ok (Hooks.givenOperations c'))
  /\ (forall out, res = JS.Ok out ->
        List.length calls = List.length hs
        /\ (hs = [] -> out = cur)
        /\ (forall h c, nth_error hs (List.length hs - 1) = Some h ->
              nth_error calls (List.length hs - 1) = Some c ->
              Hooks.tapFn h (Hooks.givenOperations c) ctx = JS.Ok out))
  /\ (forall e, res = JS.Throw e ->
        exists h c, nth_error hs (List.length calls - 1) = Some h
                    /\ nth_error calls (List.length calls - 1) = Some c
                    /\ Hooks.tapFn h (Hooks.givenOperations c) ctx = JS.Throw e).
Proof.
  induction hs as [|h hs IH]; intros idx cur ctx; cbv zeta.
  - simpl. repeat split; auto.
    + intros H; now elim H.
    + intros [|i] c c' h0; discriminate.
    + inversion H. reflexivity.
    + intros h c; discriminate.
    + intros e; discriminate.
  - simpl. destruct (Hooks.tapFn h cur ctx) as [next|e0] eqn:Hh.
    + specialize (IH (S idx) next ctx). cbv zeta in IH.
      destruct (Hooks.dispatch hs (S idx) next ctx) as [calls res] eqn:Hd.
      simpl in *.
      destruct IH as (Hidx & Hlen & Hctx & Hhead & Hchain & Hok & Herr).
      refine (conj _ (conj _ (conj _ (conj _ (conj _ (conj _ _)))))).
      * now rewrite Hidx.
      * lia.
      * now constructor.
      * intros _. eexists _, _. split; reflexivity.
      * intros [|i] c c' h0 Hc Hc' Hh0; simpl in *.
        -- inversion Hc; subst c. inversion Hh0; subst h0. simpl.
           destruct hs as [|h1 hs1].
           ++ simpl in Hd. inversion Hd; subst calls. discriminate.
           ++ destruct Hhead as (c1 & rest & -> & Hc1); [discriminate|].
              simpl in Hc'. inversion Hc'; subst c'. now rewrite Hc1.
        -- eapply Hchain; eauto.
      * intros out Hout. destruct (Hok out Hout) as (Hl & Hnil & Hlast).
        split; [lia|]. split; [discriminate|].
        intros h0 c. rewrite Nat.sub_0_r.
        destruct hs as [|h1 hs1].
        -- simpl. intros Hh0 Hc. inversion Hh0; subst h0.
           destruct calls; [|discriminate]. simpl in Hc. inversion Hc; subst c.
           simpl. rewrite Hh. now rewrite (Hnil eq_refl).
        -- simpl List.length. cbn [nth_error]. intros Hh0 Hc.
           apply Hlast; simpl; rewrite Nat.sub_0_r; assumption.
      * intros e He. destruct (Herr e He) as (h0 & c & Hh0 & Hc & Hthrow).
        rewrite Nat.sub_0_r.
        destruct calls as [|c0 calls0].
        -- simpl in Hc. discriminate.
        -- replace (List.length (c0 :: calls0) - 1)%nat with (List.length calls0)
             in Hh0, Hc by (simpl; lia).
           simpl List.length. exists h0, c. cbn [nth_error]. auto.
    + simpl. refine (conj _ (conj _ (conj _ (conj _ (conj _ (conj _ _)))))).
      * reflexivity.
      * lia.
      * repeat constructor.
      * intros _. eexists _, _. split; reflexivity.
      * intros [|[|i]] c c' h0 Hc Hc'; discriminate.
      * intros out; discriminate.
      * intros e He. inversion He; subst e.
        exists h, {| Hooks.callee := idx; Hooks.givenOperations := cur;
                     Hooks.givenContext := ctx |}.
        simpl. auto.
Qed.

End WaterfallFacts.

(** C7: the handlers registered on [createOperations] are kept in
    registration order; a dispatch calls them in that order, one after the
    other and none twice, each with the context it was started with; the
    first is given the initial operations and every later one the
    operations its predecessor resolved to; and when no handler fails the
    result is what the last handler resolved to (the initial operations
    when there is no handler).  A handler that fails ends the dispatch with
    its failure, and a dispatch whose handlers all succeed returns. *)
Theorem createOperations_waterfall (Operations Ctx : Type)
    (registered : list (Hooks.Tap Operations Ctx))
    (init : Operations) (ctx : Ctx) :
  let hook := Hooks.registerAll registered in
  let calls := fst (Hooks.promise hook init ctx) in
  let res := snd (Hooks.promise hook init ctx) in
  Hooks.taps hook = registered
  /\ map Hooks.callee calls = seq 0 (List.length calls)
  /\ (List.length calls <= List.length registered)%nat
  /\ Forall (fun c => Hooks.givenContext c = ctx) calls
  /\ (registered <> [] ->
      exists c rest, calls = c :: rest /\ Hooks.givenOperations c = init)
  /\ (forall i c c' h,
        nth_error calls i = Some c -> nth_error calls (S i) = Some c' ->
        nth_error registered i = Some h ->
        Hooks.tapFn h (Hooks.givenOperations c) ctx = JS.Ok (Hooks.givenOperations c'))
  /\ (forall out, res = JS.Ok out ->
        List.length calls = List.length registered
        /\ (registered = [] -> out = init)
        /\ (forall h c,
              nth_error registered (List.length registered - 1) = Some h ->
              nth_error calls (List.length registered - 1) = Some c ->
              Hooks.tapFn h (Hooks.givenOperations c) ctx = JS.Ok out))
  /\ (forall e, res = JS.Throw e ->
        exists h c, nth_error registered (List.length calls - 1) = Some h
                    /\ nth_error calls (List.length calls - 1) = Some c
                    /\ Hooks.tapFn h (Hooks.givenOperations c) ctx = JS.Throw e)
  /\ ((forall h ops, In h registered -> exists ops', Hooks.tapFn h ops ctx = JS.Ok ops') ->
      exists out, res = JS.Ok out).
Proof.
  cbv zeta. unfold Hooks.promise. rewrite registerAll_taps.
  split; [reflexivity|].
  destruct (dispatch_spec Operations Ctx registered 0 init ctx)
    as (H1 & H2 & H3 & H4 & H5 & H6 & H7).
  refine (conj H1 (conj H2 (conj H3 (conj H4 (conj H5 (conj H6 (conj H7 _))))))).
  intros Hall.
  destruct (snd (Hooks.dispatch registered 0 init ctx)) as [out|e] eqn:R.
  - now exists out.
  - destruct (H7 e eq_refl) as (h & c & Hh & _ & Hthrow).
    apply nth_error_In in Hh.
    destruct (Hall h (Hooks.givenOperations c) Hh) as [ops' Hok].
    rewrite Hok in Hthrow. discriminate.
Qed.

Example waterfall_two_handlers :
  Hooks.promise
    (Hooks.tapPromise
       (Hooks.tapPromise (Hooks.createOperations _ _) "lint" addLint)
       "build-only" onlyBuild)
    ["build"; "test"]%string true
  = ([ {| Hooks.callee := 0; Hooks.givenOperations := ["build"; "test"]%string;
          Hooks.givenContext := true |};
       {| Hooks.callee := 1; Hooks.givenOperations := ["build"; "test"; "lint"]%string;
          Hooks.givenContext := true |} ],
     JS.Ok ["build"%string]).
Proof. reflexivity. Qed.

Example waterfall_rejecting_handler :
  Hooks.promise
    (Hooks.registerAll
       [ {| Hooks.tapName := "lint"; Hooks.tapFn := addLint |};
         {| Hooks.tapName := "reject"; Hooks.tapFn := rejecting |};
         {| Hooks.tapName := "build-only"; Hooks.tapFn := onlyBuild |} ])
    ["build"%string] false
  = ([ {| Hooks.callee := 0; Hooks.givenOperations := ["build"%string];
          Hooks.givenContext := false |};
       {| Hooks.callee := 1; Hooks.givenOperations := ["build"; "lint"]%string;
          Hooks.givenContext := false |} ],
     JS.Throw (JS.OtherError "no project selected")).
Proof. reflexivity. Qed.

(** ** Durations by phase *)

Lemma phaseGet_same_id m p q :
  phaseId p = phaseId q -> phaseGet m p = phaseGet m q.
Proof.
  intros E. induction m as [|[k v] m IH]; simpl; [reflexivity|].
  now rewrite E, IH.
Qed.

Lemma phaseGet_phaseSet m p v q :
  phaseGet (phaseSet m p v) q
  = if Nat.eqb (phaseId p) (phaseId q) then Some v else phaseGet m q.
Proof.
  induction m as [|[k w] m IH]; simpl.
  - reflexivity.
  - destruct (Nat.eqb_spec (phaseId k) (phaseId p)) as [E|E]; simpl.
    + rewrite E. now destruct (Nat.eqb (phaseId p) (phaseId q)).
    + rewrite IH.
      destruct (Nat.eqb_spec (phaseId k) (phaseId q)) as [E'|E'];
        destruct (Nat.eqb_spec (phaseId p) (phaseId q)) as [E''|E'']; try reflexivity.
      congruence.
Qed.

Lemma phaseSet_keys m p v :
  map (fun kv => phaseId (fst kv)) (phaseSet m p v)
  = if existsb (fun kv => Nat.eqb (phaseId (fst kv)) (phaseId p)) m
    then map (fun kv => phaseId (fst kv)) m
    else map (fun kv => phaseId (fst kv)) m ++ [phaseId p].
Proof.
  induction m as [|[k w] m IH]; simpl; [reflexivity|].
  destruct (Nat.eqb (phaseId k) (phaseId p)); simpl; [reflexivity|].
  rewrite IH. now destruct (existsb _ m).
Qed.

Lemma phaseSet_NoDup m p v :
  NoDup (map (fun kv => phaseId (fst kv)) m) ->
  NoDup (map (fun kv => phaseId (fst kv)) (phaseSet m p v)).
Proof.
  intros H. rewrite phaseSet_keys.
  destruct (existsb _ m) eqn:E; [exact H|].
  apply NoDup_app; [exact H | repeat constructor; intros [] |].
  intros x Hx [<-|[]]. apply in_map_iff in Hx. destruct Hx as (kv & Hk & Hin).
  assert (T : existsb (fun kv => Nat.eqb (phaseId (fst kv)) (phaseId p)) m = true).
  { apply existsb_exists. exists kv. split; [exact Hin|]. now apply Nat.eqb_eq. }
  congruence.
Qed.

Lemma phaseSet_nonempty m p v : phaseSet m p v <> [].
Proof.
  destruct m as [|[k w] m]; simpl; [discriminate|].
  destruct (Nat.eqb (phaseId k) (phaseId p)); discriminate.
Qed.

Lemma orZero_eq x : orZero (Some x) == x.
Proof.
  unfold orZero, JS.Qzero. destruct (Qeq_bool x 0) eqn:E; [|reflexivity].
  apply Qeq_bool_eq in E. now rewrite E.
Qed.

(** What the first loop leaves in [durationByPhase]. *)
Lemma gather_phases (ops : list (Operation.t * IOperationExecutionResult)) :
  let m := durationByPhase (gather {| operationResults := ops |}) in
  let es := filter kept ops in
  (forall p, phaseGet m p = None <-> filter (ofPhase p) es = [])
  /\ (forall p v, phaseGet m p = Some v ->
        v == sumQ (map durationOf (filter (ofPhase p) es)))
  /\ NoDup (map (fun kv => phaseId (fst kv)) m)
  /\ (m = [] <-> filter hasPhase es = []).
Proof.
  induction ops as [|entry ops IH] using rev_ind.
  - simpl. repeat split; auto; try discriminate. constructor.
  - cbv zeta in *. rewrite gather_snoc, filter_snoc.
    destruct IH as (Hnone & Hsome & Hnd & Hemp).
    destruct (kept entry) eqn:K;
      [|rewrite (gatherStep_dropped _ _ K); auto].
    rewrite (gatherStep_kept _ _ K). cbn [durationByPhase].
    set (m := durationByPhase (gather {| operationResults := ops |})) in *.
    set (es := filter kept ops) in *.
    destruct (Operation.associatedPhase (fst entry)) as [ph|] eqn:A.
    + refine (conj _ (conj _ (conj _ _))).
      * intros p. rewrite phaseGet_phaseSet, filter_snoc. unfold ofPhase at 1.
        rewrite A. destruct (Nat.eqb (phaseId ph) (phaseId p)).
        -- split; [discriminate|]. intros C.
           apply app_eq_nil in C. destruct C; discriminate.
        -- apply Hnone.
      * intros p v. rewrite phaseGet_phaseSet, filter_snoc. unfold ofPhase at 1.
        rewrite A. destruct (Nat.eqb_spec (phaseId ph) (phaseId p)) as [E|E].
        -- intros Hv. inversion Hv; subst v. clear Hv.
           rewrite map_app. cbn [map]. rewrite sumQ_snoc.
           rewrite (phaseGet_same_id m ph p E).
           destruct (phaseGet m p) as [v0|] eqn:G.
           ++ rewrite orZero_eq. now rewrite (Hsome p v0 G).
           ++ apply Hnone in G. rewrite G. simpl. reflexivity.
        -- apply Hsome.
      * now apply phaseSet_NoDup.
      * rewrite filter_snoc. unfold hasPhase at 1. rewrite A. split.
        -- intros C. now apply phaseSet_nonempty in C.
        -- intros C. apply app_eq_nil in C. destruct C; discriminate.
    + refine (conj _ (conj _ (conj Hnd _))).
      * intros p. rewrite filter_snoc. unfold ofPhase at 1. rewrite A. apply Hnone.
      * intros p v. rewrite filter_snoc. unfold ofPhase at 1. rewrite A. apply Hsome.
      * rewrite filter_snoc. unfold hasPhase at 1. rewrite A. exact Hemp.
Qed.

Lemma filter_nil_iff {A} (f : A -> bool) l :
  filter f l = [] <-> forall x, In x l -> f x = false.
Proof.
  induction l as [|a l IH]; simpl.
  - split; auto. intros _ x [].
  - destruct (f a) eqn:E; split.
    + discriminate.
    + intros H. rewrite (H a (or_introl eq_refl)) in E. discriminate.
    + intros H x [<-|Hx]; [exact E | now apply IH].
    + intros H. apply IH. intros x Hx. apply H. now right.
Qed.

(** A run that throws nothing ends with the phase block and a blank line. *)
Lemma printTimeline_tail consoleWidth result :
  thrown (_printTimeline consoleWidth result) = None ->
  exists before,
    written (_printTimeline consoleWidth result)
    = before ++ phaseSection (durationByPhase (gather result)) ++ [[text ""]].
Proof.
  unfold _printTimeline. cbv zeta.
  destruct (printRows _ _ _ _) as [[busy out] [e|]]; cbn [thrown written];
    [discriminate|].
  intros _. eexists. rewrite !app_assoc. reflexivity.
Qed.

Lemma phaseSection_nil m : phaseSection m = [] <-> m = [].
Proof.
  unfold phaseSection. destruct m; simpl; split; auto; discriminate.
Qed.


Example phases_of_ABC :
  map (fun kv => (phaseName (fst kv), JS.QtoFixed1 (snd kv)))
      (durationByPhase (gather resultABC))
  = [("_phase:build", "3.0"); ("_phase:test", "7.0")]%string
  /\ map spanText (List.concat (phaseSection (durationByPhase (gather resultABC))))
     = ["BY PHASE:"; "  "; "    _phase:build"; " 3.0s";
        "  "; "     _phase:test"; " 7.0s"]%string.
Proof. vm_compute. split; reflexivity. Qed.

(** ** Busy CPUs and overlapping intervals *)

Lemma above_true t x : above t x = true <-> t < x.
Proof.
  unfold above. rewrite negb_true_iff. split.
  - intros H. apply Qnot_le_lt. intros C. apply Qle_bool_iff in C. congruence.
  - intros H. destruct (Qle_bool x t) eqn:E; [|reflexivity].
    apply Qle_bool_iff in E. lra.
Qed.

Lemma above_false t x : above t x = false <-> x <= t.
Proof.
  unfold above. rewrite negb_false_iff. apply Qle_bool_iff.
Qed.

Lemma covers_true t r :
  covers t r = true <-> startTime r <= t /\ t < endTime r.
Proof.
  unfold covers. rewrite andb_true_iff, Qle_bool_iff.
  split; intros [H1 H2]; split; auto; now apply (above_true t (endTime r)).
Qed.

Lemma length_filter_snoc {A} (f : A -> bool) l x :
  List.length (filter f (l ++ [x]))
  = (List.length (filter f l) + if f x then 1 else 0)%nat.
Proof.
  rewrite filter_snoc. destruct (f x); [|lia].
  rewrite length_app. reflexivity.
Qed.

Lemma length_filter_le {A} (f : A -> bool) l :
  (List.length (filter f l) <= List.length l)%nat.
Proof.
  induction l as [|a l IH]; simpl; [lia|]. destruct (f a); simpl; lia.
Qed.

Lemma length_filter_all {A} (f : A -> bool) l :
  (forall x, In x l -> f x = true) -> List.length (filter f l) = List.length l.
Proof.
  induction l as [|a l IH]; intros H; simpl; [reflexivity|].
  rewrite (H a (or_introl eq_refl)). simpl. f_equal. apply IH.
  intros x Hx. apply H. now right.
Qed.

Lemma length_filter_ext_in {A} (f g : A -> bool) l :
  (forall x, In x l -> f x = g x) ->
  List.length (filter f l) = List.length (filter g l).
Proof.
  induction l as [|a l IH]; intros H; simpl; [reflexivity|].
  rewrite (H a (or_introl eq_refl)).
  assert (E : List.length (filter f l) = List.length (filter g l)).
  { apply IH. intros x Hx. apply H. now right. }
  destruct (g a); simpl; now rewrite E.
Qed.

Lemma list_max_ge_In (l : list nat) (x : nat) : In x l -> (x <= list_max l)%nat.
Proof.
  intros H. assert (F : Forall (fun k => (k <= list_max l)%nat) l).
  { apply list_max_le. lia. }
  rewrite Forall_forall in F. now apply F.
Qed.

Lemma list_max_attained (l : list nat) : l <> [] -> In (list_max l) l.
Proof.
  induction l as [|a l IH]; intros H; [now elim H|].
  simpl. destruct l as [|b l'].
  - left. simpl. lia.
  - destruct (Nat.max_spec a (list_max (b :: l'))) as [[_ E]|[_ E]].
    + right. simpl in E |- *. rewrite E. apply IH. discriminate.
    + left. simpl in E |- *. now rewrite E.
Qed.

(** The two ways [trackBusy] changes [busyCpus]: the first entry that is
    at most the start time is overwritten, or, when there is none, the end
    time is appended. *)
Lemma trackBusy_cases (busy : list Q) (r : ITimelineRecord) :
  (exists before b after,
      busy = before ++ b :: after
      /\ b <= startTime r
      /\ (forall x, In x before -> startTime r < x)
      /\ trackBusy busy r = before ++ endTime r :: after)
  \/ ((forall x, In x busy -> startTime r < x)
      /\ trackBusy busy r = busy ++ [endTime r]).
Proof.
  unfold trackBusy. induction busy as [|b busy IH]; simpl.
  - right. split; [intros x [] | reflexivity].
  - destruct (Qle_bool b (startTime r)) eqn:E.
    + left. exists [], b, busy. simpl. apply Qle_bool_iff in E.
      repeat split; auto. intros x [].
    + assert (Hb : startTime r < b) by (apply (above_true (startTime r) b);
                                        unfold above; now rewrite E).
      destruct IH as [(before & c & after & -> & Hc & Hbefore & Hset)|[Hall Hset]].
      * left. exists (b :: before), c, after. simpl. rewrite Hset.
        repeat split; auto. intros x [<-|Hx]; auto.
      * right. simpl. rewrite Hset. split; [|reflexivity].
        intros x [<-|Hx]; auto.
Qed.

Lemma countAbove_app t l1 l2 :
  countAbove t (l1 ++ l2) = (countAbove t l1 + countAbove t l2)%nat.
Proof. unfold countAbove. now rewrite filter_app, length_app. Qed.

Lemma countAbove_cons t x l :
  countAbove t (x :: l) = ((if above t x then 1 else 0) + countAbove t l)%nat.
Proof. unfold countAbove. simpl. now destruct (above t x). Qed.

Lemma busyCpusOf_snoc rows r :
  busyCpusOf (rows ++ [r]) = trackBusy (busyCpusOf rows) r.
Proof. unfold busyCpusOf. now rewrite fold_left_app. Qed.

Lemma overlapAt_snoc t rows r :
  overlapAt t (rows ++ [r]) = (overlapAt t rows + if covers t r then 1 else 0)%nat.
Proof. apply length_filter_snoc. Qed.

(** No more records run at a time [t] than entries of [busyCpus] are
    beyond [t]. *)
Lemma overlap_le_busy (rows : list ITimelineRecord) :
  Forall (fun r => startTime r <= endTime r) rows ->
  forall t, (overlapAt t rows <= countAbove t (busyCpusOf rows))%nat.
Proof.
  induction rows as [|r rows IH] using rev_ind; intros Hle t.
  - unfold overlapAt, countAbove. simpl. lia.
  - apply Forall_app in Hle. destruct Hle as [Hrows Hr].
    inversion Hr as [|? ? Hse _]; subst.
    specialize (IH Hrows t). rewrite overlapAt_snoc, busyCpusOf_snoc.
    destruct (trackBusy_cases (busyCpusOf rows) r)
      as [(before & b & after & Hb & Hbs & _ & ->)|[_ ->]].
    + rewrite Hb in IH.
      rewrite countAbove_app, countAbove_cons in IH |- *.
      destruct (covers t r) eqn:C.
      * apply covers_true in C. destruct C as [C1 C2].
        assert (F : above t b = false) by (apply above_false; lra).
        assert (T : above t (endTime r) = true) by (now apply above_true).
        rewrite F in IH. rewrite T. lia.
      * destruct (above t b) eqn:F; [|destruct (above t (endTime r)); lia].
        apply above_true in F.
        assert (T : above t (endTime r) = true) by (apply above_true; lra).
        rewrite T. lia.
    + rewrite countAbove_app, countAbove_cons.
      destruct (covers t r) eqn:C; [|lia].
      apply covers_true in C. destruct C as [C1 C2].
      assert (T : above t (endTime r) = true) by (now apply above_true).
      rewrite T. lia.
Qed.

(** No more entries of [busyCpus] are beyond [t] than records end after
    [t]. *)
Lemma busy_le_ends (rows : list ITimelineRecord) :
  forall t, (countAbove t (busyCpusOf rows) <= endsAfter t rows)%nat.
Proof.
  induction rows as [|r rows IH] using rev_ind; intros t.
  - unfold endsAfter, countAbove. simpl. lia.
  - specialize (IH t). unfold endsAfter in *.
    rewrite length_filter_snoc, busyCpusOf_snoc.
    destruct (trackBusy_cases (busyCpusOf rows) r)
      as [(before & b & after & Hb & _ & _ & ->)|[_ ->]].
    + rewrite Hb in IH. rewrite countAbove_app, countAbove_cons in IH |- *.
      destruct (above t b), (above t (endTime r)); lia.
    + rewrite countAbove_app, countAbove_cons.
      unfold countAbove at 2. simpl. destruct (above t (endTime r)); lia.
Qed.

Lemma startsAscending_snoc rows r :
  startsAscending (rows ++ [r]) ->
  startsAscending rows /\ forall x, In x rows -> startTime x <= startTime r.
Proof.
  unfold startsAscending. induction rows as [|a rows IH]; simpl; intros H.
  - split; [constructor | intros x []].
  - inversion H as [|? ? Hs Hall]; subst.
    destruct (IH Hs) as [Hrows Hlast].
    apply Forall_app in Hall. destruct Hall as [Hall Har].
    split; [now constructor|].
    intros x [<-|Hx]; [now inversion Har | now apply Hlast].
Qed.

Lemma overlapAt_le_maxOverlap rows r :
  In r rows -> (overlapAt (startTime r) rows <= maxOverlap rows)%nat.
Proof.
  intros H. unfold maxOverlap. apply list_max_ge_In.
  apply in_map_iff. now exists r.
Qed.

Lemma maxOverlap_mono rows r : (maxOverlap rows <= maxOverlap (rows ++ [r]))%nat.
Proof.
  unfold maxOverlap at 1. apply list_max_le. apply Forall_forall.
  intros n Hn. apply in_map_iff in Hn. destruct Hn as (x & <- & Hx).
  transitivity (overlapAt (startTime x) (rows ++ [r])).
  - rewrite overlapAt_snoc. lia.
  - apply overlapAt_le_maxOverlap. apply in_or_app. now left.
Qed.

Lemma countAbove_all t l :
  (forall x, In x l -> t < x) -> countAbove t l = List.length l.
Proof.
  intros H. apply length_filter_all. intros x Hx. apply above_true. now apply H.
Qed.

Lemma countAbove_le_length t l : (countAbove t l <= List.length l)%nat.
Proof. apply length_filter_le. Qed.

(** Whenever an entry is appended to [busyCpus], as many records as it
    then has entries are running at the start time at hand. *)
Lemma busy_le_maxOverlap (rows : list ITimelineRecord) :
  startsAscending rows ->
  Forall (fun r => startTime r < endTime r) rows ->
  (List.length (busyCpusOf rows) <= maxOverlap rows)%nat.
Proof.
  induction rows as [|r rows IH] using rev_ind; intros Hsorted Hlt.
  - simpl. lia.
  - apply startsAscending_snoc in Hsorted. destruct Hsorted as [Hsorted Hstarts].
    apply Forall_app in Hlt. destruct Hlt as [Hrows Hr].
    inversion Hr as [|? ? Hse _]; subst.
    specialize (IH Hsorted Hrows).
    pose proof (maxOverlap_mono rows r) as Hmono.
    rewrite busyCpusOf_snoc.
    destruct (trackBusy_cases (busyCpusOf rows) r)
      as [(before & b & after & Hb & _ & _ & ->)|[Hall ->]].
    + rewrite Hb in IH. rewrite length_app in IH |- *. simpl in IH |- *. lia.
    + rewrite length_app. simpl.
      transitivity (overlapAt (startTime r) (rows ++ [r])).
      2:{ apply overlapAt_le_maxOverlap. apply in_or_app. right. now left. }
      rewrite overlapAt_snoc.
      assert (C : covers (startTime r) r = true).
      { apply covers_true. split; [apply Qle_refl | exact Hse]. }
      rewrite C.
      assert (E : overlapAt (startTime r) rows = endsAfter (startTime r) rows).
      { apply length_filter_ext_in. intros x Hx. unfold covers.
        assert (T : Qle_bool (startTime x) (startTime r) = true).
        { apply Qle_bool_iff. now apply Hstarts. }
        now rewrite T. }
      pose proof (busy_le_ends rows (startTime r)) as Hends.
      rewrite (countAbove_all _ _ Hall) in Hends. lia.
Qed.

Lemma maxOverlap_le_busy (rows : list ITimelineRecord) :
  Forall (fun r => startTime r <= endTime r) rows ->
  (maxOverlap rows <= List.length (busyCpusOf rows))%nat.
Proof.
  intros Hle. unfold maxOverlap. apply list_max_le. apply Forall_forall.
  intros n Hn. apply in_map_iff in Hn. destruct Hn as (x & <- & _).
  pose proof (overlap_le_busy rows Hle (startTime x)).
  pose proof (countAbove_le_length (startTime x) (busyCpusOf rows)). lia.
Qed.

Lemma Forall_lt_le rows :
  Forall (fun r => startTime r < endTime r) rows ->
  Forall (fun r => startTime r <= endTime r) rows.
Proof.
  apply Forall_impl. intros r H. now apply Qlt_le_weak.
Qed.

(** C1, as worded: of an operation from 1 to 10 and one that starts and
    ends at 5, in that order of start times and each with
    [startTime <= endTime], no two are running at one time (the interval
    [[5, 5)] is empty), so that the greatest overlap is 1; the
    reconstruction gives 2. *)
Lemma busyCpus_instant_counterexample :
  startsAscending rowsWithInstant
  /\ Forall (fun r => startTime r <= endTime r) rowsWithInstant
  /\ (forall t, (overlapAt t rowsWithInstant <= 1)%nat)
  /\ maxOverlap rowsWithInstant = 1%nat
  /\ List.length (busyCpusOf rowsWithInstant) = 2%nat.
Proof.
  split; [|split; [|split; [|split]]].
  - repeat constructor. simpl. lra.
  - repeat constructor; simpl; lra.
  - intros t. unfold overlapAt, rowsWithInstant. simpl.
    assert (E : covers t (interval 5 5) = false).
    { unfold covers. simpl. now destruct (Qle_bool 5 t). }
    rewrite E. destruct (covers t (interval 1 10)); simpl; lia.
  - reflexivity.
  - reflexivity.
Qed.

(** C1, amended: for records in ascending order of start time, each with
    [startTime < endTime], the length of [busyCpus] after the loop is the
    greatest number of intervals [[startTime, endTime)] that hold one time
    in common: no time lies in more of them, and, when there is a record,
    some start time lies in that many.  It is 1 when no two of the
    intervals (there being at least one) have a time in common, and the
    number of records when one time lies in all of them. *)
Theorem busyCpus_is_max_overlap (rows : list ITimelineRecord) :
  startsAscending rows ->
  Forall (fun r => startTime r < endTime r) rows ->
  List.length (busyCpusOf rows) = maxOverlap rows
  /\ (forall t, (overlapAt t rows <= List.length (busyCpusOf rows))%nat)
  /\ (rows <> [] ->
      exists r, In r rows
                /\ overlapAt (startTime r) rows = List.length (busyCpusOf rows))
  /\ (rows <> [] -> (forall t, (overlapAt t rows <= 1)%nat) ->
      List.length (busyCpusOf rows) = 1%nat)
  /\ ((exists t, forall r, In r rows -> covers t r = true) ->
      List.length (busyCpusOf rows) = List.length rows).
Proof.
  intros Hsorted Hlt.
  pose proof (Forall_lt_le rows Hlt) as Hle.
  assert (Heq : List.length (busyCpusOf rows) = maxOverlap rows).
  { apply Nat.le_antisymm;
      [now apply busy_le_maxOverlap | now apply maxOverlap_le_busy]. }
  assert (Hup : forall t, (overlapAt t rows <= List.length (busyCpusOf rows))%nat).
  { intros t. pose proof (overlap_le_busy rows Hle t).
    pose proof (countAbove_le_length t (busyCpusOf rows)). lia. }
  refine (conj Heq (conj Hup (conj _ (conj _ _)))).
  - intros Hne. rewrite Heq. unfold maxOverlap.
    assert (Hin : In (list_max (map (fun r => overlapAt (startTime r) rows) rows))
                     (map (fun r => overlapAt (startTime r) rows) rows)).
    { apply list_max_attained. destruct rows; [now elim Hne | discriminate]. }
    apply in_map_iff in Hin. destruct Hin as (r & Hr & Hin). now exists r.
  - intros Hne Hone. rewrite Heq. apply Nat.le_antisymm.
    + unfold maxOverlap. apply list_max_le. apply Forall_forall.
      intros n Hn. apply in_map_iff in Hn. destruct Hn as (x & <- & _). apply Hone.
    + destruct rows as [|r rows']; [now elim Hne|].
      transitivity (overlapAt (startTime r) (r :: rows')).
      * unfold overlapAt. simpl.
        assert (C : covers (startTime r) r = true).
        { apply covers_true. split; [apply Qle_refl|]. now inversion Hlt. }
        rewrite C. simpl. lia.
      * apply overlapAt_le_maxOverlap. now left.
  - intros (t & Hall). apply Nat.le_antisymm.
    + rewrite Heq. unfold maxOverlap. apply list_max_le. apply Forall_forall.
      intros n Hn. apply in_map_iff in Hn. destruct Hn as (x & <- & _).
      apply length_filter_le.
    + specialize (Hup t). unfold overlapAt in Hup.
      now rewrite (length_filter_all _ _ Hall) in Hup.
Qed.

(** Three staggered operations keep two CPUs busy. *)
Lemma busyCpus_is_max_overlap_witness :
  List.length (busyCpusOf rowsStaggered) = 2%nat
  /\ maxOverlap rowsStaggered = 2%nat.
Proof.
  assert (S : startsAscending rowsStaggered).
  { repeat constructor; simpl; lra. }
  assert (L : Forall (fun r => startTime r < endTime r) rowsStaggered).
  { repeat constructor; simpl; lra. }
  destruct (busyCpus_is_max_overlap rowsStaggered S L) as [E _].
  split; [reflexivity | rewrite <- E; reflexivity].
Defined.

Lemma insertByStart_ascending r l :
  startsAscending l -> startsAscending (insertByStart r l).
Proof.
  unfold startsAscending. induction l as [|x l IH]; simpl; intros H.
  - repeat constructor.
  - inversion H as [|? ? Hl Hx]; subst.
    destruct (Qle_bool (startTime r) (startTime x)) eqn:E.
    + apply Qle_bool_iff in E. constructor; [exact H|].
      constructor; [exact E|].
      rewrite Forall_forall in Hx |- *. intros y Hy. specialize (Hx y Hy). lra.
    + assert (Hlt : startTime x < startTime r).
      { apply (above_true (startTime x) (startTime r)). unfold above. now rewrite E. }
      constructor; [now apply IH|].
      rewrite Forall_forall in Hx |- *. intros y Hy.
      apply (Permutation_in _ (insertByStart_perm r l)) in Hy.
      destruct Hy as [<-|Hy]; [lra | now apply Hx].
Qed.

(** The sort leaves the records in ascending order of start time. *)
Lemma sortByStart_ascending l : startsAscending (sortByStart l).
Proof.
  induction l as [|r l IH]; simpl; [constructor | now apply insertByStart_ascending].
Qed.

(** ** Average parallelism *)

Lemma sumQ_perm l l' : Permutation l l' -> sumQ l == sumQ l'.
Proof.
  induction 1; simpl; try reflexivity.
  - now rewrite IHPermutation.
  - ring.
  - now rewrite IHPermutation1.
Qed.

Lemma sumQ_app l1 l2 : sumQ (l1 ++ l2) == sumQ l1 + sumQ l2.
Proof.
  induction l1 as [|x l1 IH]; simpl; [ring | rewrite IH; ring].
Qed.

Lemma sumQ_nonneg l : Forall (fun x => 0 <= x) l -> 0 <= sumQ l.
Proof.
  induction 1; simpl; lra.
Qed.

(** Every entry of [busyCpus] is at most a bound of the end times. *)
Lemma busyCpus_bounded rows M :
  (forall r, In r rows -> endTime r <= M) ->
  forall x, In x (busyCpusOf rows) -> x <= M.
Proof.
  induction rows as [|r rows IH] using rev_ind; intros Hup x.
  - intros [].
  - rewrite busyCpusOf_snoc.
    assert (Hr : endTime r <= M) by (apply Hup, in_or_app; right; now left).
    assert (Hrows : forall y, In y (busyCpusOf rows) -> y <= M).
    { apply IH. intros y Hy. apply Hup, in_or_app. now left. }
    destruct (trackBusy_cases (busyCpusOf rows) r)
      as [(before & b & after & Hb & _ & _ & ->)|[_ ->]]; intros Hx.
    + rewrite Hb in Hrows. apply in_app_or in Hx.
      destruct Hx as [Hx|[<-|Hx]]; auto.
      * apply Hrows, in_or_app. now left.
      * apply Hrows, in_or_app. right. now right.
    + apply in_app_or in Hx. destruct Hx as [Hx|[<-|[]]]; auto.
Qed.

(** The summed durations are at most the time the busy CPUs account
    for, counted from a bound [m] of the start times. *)
Lemma work_le_busy rows m :
  (forall r, In r rows -> m <= startTime r) ->
  sumQ (map (fun r => endTime r - startTime r) rows)
  <= sumQ (map (fun x => x - m) (busyCpusOf rows)).
Proof.
  induction rows as [|r rows IH] using rev_ind; intros Hlow.
  - simpl. lra.
  - assert (Hr : m <= startTime r) by (apply Hlow, in_or_app; right; now left).
    assert (IH' : sumQ (map (fun r => endTime r - startTime r) rows)
                  <= sumQ (map (fun x => x - m) (busyCpusOf rows))).
    { apply IH. intros y Hy. apply Hlow, in_or_app. now left. }
    rewrite map_app, sumQ_app, busyCpusOf_snoc. simpl.
    destruct (trackBusy_cases (busyCpusOf rows) r)
      as [(before & b & after & Hb & Hbs & _ & ->)|[_ ->]].
    + rewrite Hb in IH'. rewrite map_app, sumQ_app in IH' |- *. simpl in IH' |- *. lra.
    + rewrite map_app, sumQ_app. simpl. lra.
Qed.

Lemma sumQ_bounded l c :
  (forall x, In x l -> x <= c) ->
  sumQ l <= inject_Z (Z.of_nat (List.length l)) * c.
Proof.
  induction l as [|x l IH]; intros H.
  - simpl. setoid_replace (inject_Z 0 * c) with 0 by ring. apply Qle_refl.
  - assert (Hx : x <= c) by (apply H; now left).
    assert (Hl : sumQ l <= inject_Z (Z.of_nat (List.length l)) * c).
    { apply IH. intros y Hy. apply H. now right. }
    simpl List.length. rewrite Nat2Z.inj_succ. unfold Z.succ.
    rewrite inject_Z_plus. simpl sumQ.
    setoid_replace ((inject_Z (Z.of_nat (List.length l)) + inject_Z 1) * c)
      with (inject_Z (Z.of_nat (List.length l)) * c + c) by ring.
    lra.
Qed.

(** The summed durations are at most the number of busy CPUs times the
    wall clock. *)
Lemma work_le_cpus_times_wall rows m M :
  (forall r, In r rows -> m <= startTime r) ->
  (forall r, In r rows -> endTime r <= M) ->
  sumQ (map (fun r => endTime r - startTime r) rows)
  <= inject_Z (Z.of_nat (List.length (busyCpusOf rows))) * (M - m).
Proof.
  intros Hlow Hup.
  apply Qle_trans with (sumQ (map (fun x => x - m) (busyCpusOf rows))).
  - now apply work_le_busy.
  - rewrite <- (length_map (fun x => x - m) (busyCpusOf rows)).
    apply sumQ_bounded. intros y Hy. apply in_map_iff in Hy.
    destruct Hy as (x & <- & Hx).
    pose proof (busyCpus_bounded rows M Hup x Hx). lra.
Qed.

Lemma durationOf_kept entry :
  kept entry = true ->
  durationOf entry
  = (endTime (recordOf entry) - startTime (recordOf entry)) / 1000.
Proof.
  unfold kept, durationOf, Stopwatch.duration, recordOf, hasTimestamp. simpl.
  destruct (Stopwatch.startTime _), (Stopwatch.endTime _); simpl;
    rewrite ?andb_false_r; try discriminate. reflexivity.
Qed.

(** [workDuration] is the summed length of the records, in seconds. *)
Lemma workDuration_seconds ops :
  workDuration (gather {| operationResults := ops |})
  == sumQ (map (fun r => endTime r - startTime r)
               (data (gather {| operationResults := ops |}))) / 1000.
Proof.
  destruct (gather_spec ops) as (Hd & _ & _ & Hw & _). cbv zeta in *.
  rewrite Hw, Hd. clear Hw Hd.
  assert (K : Forall (fun e => kept e = true) (filter kept ops)).
  { apply Forall_forall. intros e He. now apply filter_In in He. }
  induction K as [|e es Ke Kes IH]; cbn [map sumQ fold_right].
  - reflexivity.
  - fold (sumQ (map durationOf es)).
    fold (sumQ (map (fun r => endTime r - startTime r) (map recordOf es))).
    rewrite IH, (durationOf_kept e Ke). field.
Qed.

Lemma div_by_1000 x : JS.div (JS.Fin x) (JS.ofZ 1000) = JS.Fin (x / inject_Z 1000).
Proof. reflexivity. Qed.

Lemma div_by_positive w y : 0 < y -> JS.div (JS.Fin w) (JS.Fin y) = JS.Fin (w / y).
Proof.
  intros Hy. unfold JS.div, JS.Qzero.
  destruct (Qeq_bool y 0) eqn:E; [|reflexivity].
  apply Qeq_bool_eq in E. rewrite E in Hy. now apply Qlt_irrefl in Hy.
Qed.


Example summary_of_ABC :
  let sm := summaryOf (gather resultABC) (layoutOf None (gather resultABC))
              (busyCpusOf (sortByStart (data (gather resultABC)))) in
  (JS.toFixed1 (totalWork sm), JS.toFixed1 (wallClock sm), usedCpus sm,
   JS.toFixed1 (avgParallelism sm))
  = ("13.0", "10.0", 2%nat, "1.3")%string.
Proof. vm_compute. reflexivity. Qed.

(** ** Rows in a chart of non-negative width *)

Lemma padStart_length s n :
  String.length (JS.padStart s (Z.of_nat n)) = Nat.max (String.length s) n.
Proof.
  unfold JS.padStart. rewrite length_app_string, length_repeatNat. simpl. lia.
Qed.

(** The scaled position of a time inside the wall clock lies inside the
    chart, and later times lie further right. *)
Lemma scaled_position_bounds (a d t t' : Q) (w : Z) :
  0 < d -> (0 <= w)%Z -> a <= t -> t <= t' -> t' <= a + d ->
  (0 <= Qfloor (((t + - a) * inject_Z w) / d))%Z
  /\ (Qfloor (((t + - a) * inject_Z w) / d)
      <= Qfloor (((t' + - a) * inject_Z w) / d))%Z
  /\ (Qfloor (((t' + - a) * inject_Z w) / d) <= w)%Z.
Proof.
  intros Hd Hw Hat Htt' Ht'.
  assert (HW : 0 <= inject_Z w).
  { change 0 with (inject_Z 0). rewrite <- Zle_Qle. exact Hw. }
  assert (Hinv : 0 <= / d) by (apply Qinv_le_0_compat; lra).
  split; [|split].
  - change 0%Z with (Qfloor 0). apply Qfloor_resp_le.
    apply Qle_shift_div_l; [exact Hd|]. rewrite Qmult_0_l.
    apply Qmult_le_0_compat; [lra | exact HW].
  - apply Qfloor_resp_le. unfold Qdiv.
    apply Qmult_le_compat_r; [|exact Hinv].
    apply Qmult_le_compat_r; [lra | exact HW].
  - rewrite <- (Qfloor_Z w) at 2. apply Qfloor_resp_le.
    apply Qle_shift_div_r; [exact Hd|].
    rewrite (Qmult_comm (inject_Z w) d).
    apply Qmult_le_compat_r; [lra | exact HW].
Qed.

(** X1: in a chart of non-negative width over a wall clock that is not of
    zero length (records gathered, each with [startTime <= endTime] and a
    name), every row is drawn and has exactly [maxWidth] characters, as
    many as the rules above and below the chart, and the run throws
    nothing. *)
Lemma rows_fill_the_width (consoleWidth : option nat) (result : IExecutionResult) :
  let g := gather result in
  let ly := layoutOf consoleWidth g in
  data g <> [] ->
  (forall r, In r (data g) -> startTime r <= endTime r) ->
  (forall r, In r (data g) -> name r <> None) ->
  JS.isZero (allDuration ly) = false ->
  (0 <= chartWidth ly)%Z ->
  (forall r, In r (sortByStart (data g)) ->
     exists line, row ly r = JS.Ok line /\ glyphs line = maxWidth ly)
  /\ thrown (_printTimeline consoleWidth result) = None.
Proof.
  destruct result as [ops]. cbv zeta. intros Hne Hle Hnames Hnz Hw.
  destruct (gather_spec ops) as (Hd & Hn & Hl & _ & _ & Hsome).
  cbv zeta in Hsome.
  destruct Hsome as (a & b & Ha & Hb & [Hina Hlow] & [_ Hup]).
  { intros C. rewrite C in Hd. simpl in Hd. now apply Hne. }
  pose proof (allDuration_kept consoleWidth ops a b Ha Hb) as Hdur.
  rewrite Hdur in Hnz. simpl in Hnz. apply Qeq_bool_neq in Hnz.
  set (g := gather {| operationResults := ops |}) in *.
  assert (Hpos : 0 < b + - a).
  { apply in_map_iff in Hina. destruct Hina as (r & <- & Hr).
    specialize (Hle r Hr). specialize (Hup r Hr).
    destruct (Qlt_le_dec 0 (b + - startTime r)) as [H|H]; [exact H|].
    exfalso. apply Hnz. lra. }
  assert (Hrows : forall r, In r (sortByStart (data g)) ->
            exists line, row (layoutOf consoleWidth g) r = JS.Ok line
                         /\ glyphs line = maxWidth (layoutOf consoleWidth g)).
  { intros r Hr. apply (proj1 (sortByStart_In _ _)) in Hr.
    destruct (scaled_position_bounds a (b + - a) (startTime r) (endTime r)
                (chartWidth (layoutOf consoleWidth g)))
      as (Hi & Hij & Hj); auto.
    { specialize (Hup r Hr). lra. }
    (* the name and the duration fit their columns *)
    destruct (name r) as [n|] eqn:Hname; [|now elim (Hnames r Hr)].
    assert (Hfit : (String.length n <= longestNameLength g)%nat
                   /\ (String.length (durationString r) <= longestDurationLength g)%nat).
    { rewrite Hd in Hr. apply in_map_iff in Hr. destruct Hr as (e & He & Hin).
      rewrite Hn, Hl. split.
      - transitivity (nameLengthOf (fst e)).
        + unfold nameLengthOf. rewrite <- He in Hname. simpl in Hname.
          now rewrite Hname.
        + apply list_max_ge_In. apply in_map_iff. now exists e.
      - rewrite <- He. apply list_max_ge_In. apply in_map_iff. now exists e. }
    destruct Hfit as [Hfn Hfd].
    assert (Hcw : chartWidth (layoutOf consoleWidth g)
                  = (Z.of_nat (maxWidth (layoutOf consoleWidth g))
                     - Z.of_nat (longestNameLength g)
                     - Z.of_nat (longestDurationLength g) - 4)%Z) by reflexivity.
    assert (Hcs : chartStart (layoutOf consoleWidth g) = JS.Fin a) by exact Ha.
    assert (Hnw : nameWidth (layoutOf consoleWidth g) = longestNameLength g)
      by reflexivity.
    assert (Hdw : durationWidth (layoutOf consoleWidth g) = longestDurationLength g)
      by reflexivity.
    set (ly := layoutOf consoleWidth g) in *. clearbody ly.
    unfold row. rewrite Hdur, Hcs.
    rewrite !columnIndex_finite by exact Hnz.
    set (i := Qfloor ((startTime r + - a) * inject_Z (chartWidth ly) / (b + - a))) in *.
    set (j := Qfloor ((endTime r + - a) * inject_Z (chartWidth ly) / (b + - a))) in *.
    rewrite chart_in_range by assumption.
    rewrite Hname. cbn [JS.bind]. eexists. split; [reflexivity|].
    unfold glyphs. cbn [fold_right app spanText text].
    rewrite length_app_string, !padStart_length, !length_repeatNat, symbol_length.
    cbn [String.length]. rewrite Hnw, Hdw. lia. }
  split; [exact Hrows|].
  destruct (printTimeline_completes consoleWidth {| operationResults := ops |})
    as (lines & Hp & _).
  { intros r Hr. destruct (Hrows r Hr) as (line & Hline & _). now exists line. }
  rewrite Hp. reflexivity.
Qed.

(** ** Sample runs *)


Example timeline_of_ABC :
  map (fun l => String.concat "" (map spanText l))
      (written (_printTimeline (Some 40%nat) resultABC))
  = [ "";
      "========================================";
      "A ##########----------------------- 3.0s";
      "C ---%%%%%%%%%%-------------------- 3.0s";
      "B ---------!!!!!!!!!!!!!!!!!!!!!!!! 7.0s";
      "========================================";
      "LEGEND:                Total Work: 13.0s";
      "  [#] Success  [!] Failed/warnings  [%] Skipped/cached/no-opWall Clock: 10.0s";
      "                 Max Parallelism Used: 2";
      "               Avg Parallelism Used: 1.3";
      "BY PHASE:";
      "      _phase:build 3.0s";
      "       _phase:test 7.0s";
      "" ]%string
  /\ thrown (_printTimeline (Some 40%nat) resultABC) = None.
Proof. vm_compute. split; reflexivity. Qed.

Example timeline_of_instant :
  map (fun l => String.concat "" (map spanText l))
      (written (_printTimeline (Some 40%nat) resultInstant))
  = [ "";
      "========================================";
      "noop (build)  0.0s";
      "========================================";
      "LEGEND:                 Total Work: 0.0s";
      "  [#] Success  [!] Failed/warnings  [%] Skipped/cached/no-opWall Clock: 0.0s";
      "                 Max Parallelism Used: 1";
      "               Avg Parallelism Used: NaN";
      "BY PHASE:";
      "      _phase:build 0.0s";
      "" ]%string.
Proof. vm_compute. reflexivity. Qed.

Example toFixed1_33 : JS.toFixed1 (JS.Fin (33 # 10)) = "3.3"%string.
Proof. reflexivity. Qed.
Example toFixed1_round : JS.toFixed1 (JS.Fin (1234 # 1000)) = "1.2"%string.
Proof. reflexivity. Qed.
Example toFixed1_tie : JS.toFixed1 (JS.Fin (25 # 100)) = "0.3"%string.
Proof. reflexivity. Qed.
Example toFixed1_neg : JS.toFixed1 (JS.Fin (- 25 # 10)) = "-2.5"%string.
Proof. reflexivity. Qed.
Example toFixed1_big : JS.toFixed1 (JS.Fin (50321 # 1000)) = "50.3"%string.
Proof. reflexivity. Qed.
Example repeat_nan : JS.repeat "-" JS.NaN = JS.Ok ""%string.
Proof. reflexivity. Qed.
Example repeat_neg : JS.repeat "-" (JS.ofZ (-4)) = JS.Throw JS.RangeError.
Proof. reflexivity. Qed.
Example padStart_5 : JS.padStart "ab" 5 = "   ab"%string.
Proof. reflexivity. Qed.
Example padStart_short : JS.padStart "abcdef" 3 = "abcdef"%string.
Proof. reflexivity. Qed.

(* ================================================================== *)
(** * Further properties of the timeline                               *)
(* ================================================================== *)

(** ** The choice of a CPU *)

Lemma getOpenCPU_le_length busy t : (getOpenCPU busy t <= List.length busy)%nat.
Proof.
  induction busy as [|b busy IH]; simpl; [lia|].
  destruct (Qle_bool b t); simpl; lia.
Qed.

Lemma nth_error_setCpu busy i v j :
  (i <= List.length busy)%nat ->
  nth_error (setCpu busy i v) j
  = if Nat.eqb j i then Some v else nth_error busy j.
Proof.
  revert i j. induction busy as [|b busy IH]; intros i j Hi; simpl in *.
  - assert (i = 0)%nat by lia. subst i.
    destruct j as [|j]; simpl; [reflexivity|]. now destruct j.
  - destruct i as [|i], j as [|j]; simpl; try reflexivity.
    apply IH. lia.
Qed.

Lemma length_setCpu busy i v :
  (i <= List.length busy)%nat ->
  List.length (setCpu busy i v)
  = if Nat.eqb i (List.length busy) then S (List.length busy) else List.length busy.
Proof.
  revert i. induction busy as [|b busy IH]; intros i Hi; simpl in *.
  - assert (i = 0)%nat by lia. now subst i.
  - destruct i as [|i]; simpl; [reflexivity|].
    rewrite IH by lia. now destruct (Nat.eqb i (List.length busy)).
Qed.

(** X2: [getOpenCPU(time)] is a first fit.  It returns an index that is at
    most the length of [busyCpus]; every entry before it is beyond [time];
    when the index is inside the array its entry is at most [time]; and it
    is the length exactly when every entry is beyond [time].  The
    assignment [busyCpus[openCpu] = endTime] that follows then writes the
    end time at that index, leaves every other entry as it was, and
    lengthens the array by one exactly when the index was the length: the
    array never gets a hole. *)
Theorem getOpenCPU_first_fit (busyCpus : list Q) (r : ITimelineRecord) :
  let i := getOpenCPU busyCpus (startTime r) in
  (i <= List.length busyCpus)%nat
  /\ (forall j x, (j < i)%nat -> nth_error busyCpus j = Some x -> startTime r < x)
  /\ ((i < List.length busyCpus)%nat ->
      exists x, nth_error busyCpus i = Some x /\ x <= startTime r)
  /\ (i = List.length busyCpus <-> forall x, In x busyCpus -> startTime r < x)
  /\ nth_error (trackBusy busyCpus r) i = Some (endTime r)
  /\ (forall j, j <> i -> nth_error (trackBusy busyCpus r) j = nth_error busyCpus j)
  /\ List.length (trackBusy busyCpus r)
     = (if Nat.eqb i (List.length busyCpus)
        then S (List.length busyCpus) else List.length busyCpus).
Proof.
  cbv zeta. set (t := startTime r).
  pose proof (getOpenCPU_le_length busyCpus t) as Hle.
  split; [exact Hle|].
  split; [|split; [|split; [|split; [|split]]]].
  - induction busyCpus as [|b busy IH]; simpl; intros j x Hj Hx.
    + lia.
    + destruct (Qle_bool b t) eqn:E; [lia|].
      destruct j as [|j]; simpl in Hx.
      * inversion Hx; subst x. apply (above_true t b). unfold above. now rewrite E.
      * apply (IH (getOpenCPU_le_length busy t) j x); [lia | exact Hx].
  - clear Hle. induction busyCpus as [|b busy IH]; simpl; intros Hi.
    + lia.
    + destruct (Qle_bool b t) eqn:E.
      * exists b. split; [reflexivity | now apply Qle_bool_iff].
      * simpl. apply IH. lia.
  - clear Hle. induction busyCpus as [|b busy IH]; simpl.
    + split; [intros _ x [] | reflexivity].
    + destruct (Qle_bool b t) eqn:E.
      * split; [discriminate|]. intros H. exfalso.
        apply Qle_bool_iff in E. specialize (H b (or_introl eq_refl)). lra.
      * split.
        -- intros H. injection H as H. intros x [<-|Hx].
           ++ apply (above_true t b). unfold above. now rewrite E.
           ++ now apply (proj1 IH).
        -- intros H. f_equal. apply (proj2 IH). intros x Hx. apply H. now right.
  - unfold trackBusy. fold t. rewrite nth_error_setCpu by exact Hle.
    now rewrite Nat.eqb_refl.
  - intros j Hj. unfold trackBusy. fold t. rewrite nth_error_setCpu by exact Hle.
    destruct (Nat.eqb_spec j (getOpenCPU busyCpus t)); [contradiction | reflexivity].
  - unfold trackBusy. fold t. now apply length_setCpu.
Qed.

(** ** What [busyCpus] holds after the loop *)

Lemma busyCpus_entries rows :
  forall x, In x (busyCpusOf rows) -> exists r, In r rows /\ x = endTime r.
Proof.
  induction rows as [|r rows IH] using rev_ind; intros x.
  - intros [].
  - rewrite busyCpusOf_snoc.
    destruct (trackBusy_cases (busyCpusOf rows) r)
      as [(before & b & after & Hb & _ & _ & ->)|[_ ->]]; intros Hx.
    + rewrite Hb in IH. apply in_app_or in Hx. destruct Hx as [Hx|[<-|Hx]].
      * destruct (IH x) as (r' & Hr' & E); [apply in_or_app; now left|].
        exists r'. split; [apply in_or_app; now left | exact E].
      * exists r. split; [apply in_or_app; right; now left | reflexivity].
      * destruct (IH x) as (r' & Hr' & E); [apply in_or_app; right; now right|].
        exists r'. split; [apply in_or_app; now left | exact E].
    + apply in_app_or in Hx. destruct Hx as [Hx|[<-|[]]].
      * destruct (IH x Hx) as (r' & Hr' & E).
        exists r'. split; [apply in_or_app; now left | exact E].
      * exists r. split; [apply in_or_app; right; now left | reflexivity].
Qed.

Lemma busyCpus_length_le rows :
  (List.length (busyCpusOf rows) <= List.length rows)%nat.
Proof.
  induction rows as [|r rows IH] using rev_ind; [simpl; lia|].
  rewrite busyCpusOf_snoc, length_app. simpl.
  destruct (trackBusy_cases (busyCpusOf rows) r)
    as [(before & b & after & Hb & _ & _ & ->)|[_ ->]].
  - rewrite Hb in IH. rewrite length_app in IH |- *. simpl in IH |- *. lia.
  - rewrite length_app. simpl. lia.
Qed.

Lemma busyCpus_length_mono rows r :
  (List.length (busyCpusOf rows) <= List.length (busyCpusOf (rows ++ [r])))%nat.
Proof.
  rewrite busyCpusOf_snoc.
  destruct (trackBusy_cases (busyCpusOf rows) r)
    as [(before & b & after & Hb & _ & _ & ->)|[_ ->]].
  - rewrite Hb, !length_app. simpl. lia.
  - rewrite length_app. simpl. lia.
Qed.

Lemma busyCpus_nonempty rows :
  rows <> [] -> (1 <= List.length (busyCpusOf rows))%nat.
Proof.
  induction rows as [|r rows IH] using rev_ind; intros H; [now elim H|].
  destruct rows as [|r0 rows0].
  - simpl. lia.
  - pose proof (busyCpus_length_mono (r0 :: rows0) r).
    assert (1 <= List.length (busyCpusOf (r0 :: rows0)))%nat by (apply IH; discriminate).
    lia.
Qed.

(** X3: whatever the records and their order, [busyCpus] ends with at
    most one entry per record and, when there is a record, at least one;
    every entry is the end time of one of the records; and a further
    record never shortens it. *)
Theorem busyCpus_size_and_entries (rows : list ITimelineRecord) :
  (List.length (busyCpusOf rows) <= List.length rows)%nat
  /\ (rows <> [] -> (1 <= List.length (busyCpusOf rows))%nat)
  /\ (rows = [] <-> busyCpusOf rows = [])
  /\ (forall x, In x (busyCpusOf rows) -> exists r, In r rows /\ x = endTime r)
  /\ (forall r, (List.length (busyCpusOf rows)
                 <= List.length (busyCpusOf (rows ++ [r])))%nat).
Proof.
  refine (conj (busyCpus_length_le rows)
            (conj (busyCpus_nonempty rows)
               (conj _ (conj (busyCpus_entries rows) (busyCpus_length_mono rows))))).
  split.
  - intros ->. reflexivity.
  - intros H. destruct rows as [|r rows']; [reflexivity|].
    assert (1 <= List.length (busyCpusOf (r :: rows')))%nat
      by (apply busyCpus_nonempty; discriminate).
    rewrite H in *. simpl in *. lia.
Qed.

(** X4: for records in any order, each with [startTime <= endTime] (a
    zero-length record included), no time lies in more of the intervals
    [[startTime, endTime)] than [busyCpus] has entries: "Max Parallelism
    Used" is never below the number of operations running at one time. *)
Theorem busyCpus_covers_overlap (rows : list ITimelineRecord) :
  Forall (fun r => startTime r <= endTime r) rows ->
  (forall t, (overlapAt t rows <= List.length (busyCpusOf rows))%nat)
  /\ (maxOverlap rows <= List.length (busyCpusOf rows))%nat.
Proof.
  intros Hle. split.
  - intros t. pose proof (overlap_le_busy rows Hle t).
    pose proof (countAbove_le_length t (busyCpusOf rows)). lia.
  - now apply maxOverlap_le_busy.
Qed.

(** Two operations given out of order, the second a zero-length one. *)
Lemma busyCpus_covers_overlap_witness :
  (overlapAt 5 [interval 5 5; interval 1 10] <= 2)%nat
  /\ List.length (busyCpusOf [interval 5 5; interval 1 10]) = 2%nat.
Proof.
  assert (H : Forall (fun r => startTime r <= endTime r) [interval 5 5; interval 1 10]).
  { repeat constructor; simpl; lra. }
  destruct (busyCpus_covers_overlap [interval 5 5; interval 1 10] H) as [Ht _].
  split; [exact (Ht 5) | reflexivity].
Defined.

(** ** The order of the rows *)

Lemma insertByStart_same_start r l v :
  filter (fun x => Qeq_bool (startTime x) v) (insertByStart r l)
  = filter (fun x => Qeq_bool (startTime x) v) (r :: l).
Proof.
  induction l as [|x l IH]; [reflexivity|].
  cbn [insertByStart].
  destruct (Qle_bool (startTime r) (startTime x)) eqn:E; [reflexivity|].
  cbn [filter] in IH |- *. rewrite IH.
  destruct (Qeq_bool (startTime r) v) eqn:Er; [|reflexivity].
  destruct (Qeq_bool (startTime x) v) eqn:Ex; [|reflexivity].
  exfalso. apply Qeq_bool_eq in Er, Ex.
  assert (C : Qle_bool (startTime r) (startTime x) = true).
  { apply Qle_bool_iff. rewrite Er, Ex. apply Qle_refl. }
  congruence.
Qed.

(** X6: [data.sort((a, b) => a.startTime - b.startTime)] leaves the same
    records, in ascending order of start time, and records with the same
    start time in the order they were gathered in (the order of the result
    map). *)
Theorem rows_sorted_by_start (rows : list ITimelineRecord) :
  Permutation (sortByStart rows) rows
  /\ startsAscending (sortByStart rows)
  /\ List.length (sortByStart rows) = List.length rows
  /\ (forall v,
        filter (fun x => Qeq_bool (startTime x) v) (sortByStart rows)
        = filter (fun x => Qeq_bool (startTime x) v) rows)
  /\ (startsAscending rows -> sortByStart rows = rows).
Proof.
  split; [apply sortByStart_perm|].
  split; [apply sortByStart_ascending|].
  split; [apply Permutation_length, sortByStart_perm|].
  split.
  - intros v. induction rows as [|r rows IH]; [reflexivity|].
    cbn [sortByStart]. rewrite insertByStart_same_start.
    cbn [filter]. now rewrite IH.
  - induction rows as [|r rows IH]; intros Hs; [reflexivity|].
    inversion Hs as [|? ? Hrows Hall]; subst.
    cbn [sortByStart]. rewrite (IH Hrows).
    destruct rows as [|x rows']; [reflexivity|].
    cbn [insertByStart].
    assert (E : Qle_bool (startTime r) (startTime x) = true).
    { apply Qle_bool_iff. now inversion Hall. }
    now rewrite E.
Qed.

Example sort_keeps_ties_in_order :
  map endTime (sortByStart [interval 7 9; interval 3 4; interval 7 8; interval 3 5])
  = [4; 5; 9; 8].
Proof. reflexivity. Qed.

(** ** Entries that are filtered out *)

Lemma gather_filter_kept ops :
  gather {| operationResults := filter kept ops |} = gather {| operationResults := ops |}.
Proof.
  induction ops as [|entry ops IH] using rev_ind; [reflexivity|].
  rewrite filter_snoc, gather_snoc. destruct (kept entry) eqn:K.
  - now rewrite gather_snoc, IH.
  - now rewrite (gatherStep_dropped _ _ K).
Qed.

(** X7: the operations that are filtered out (silent runner, or a missing
    or zero timestamp) have no influence on the report at all: the run
    writes and throws the same as on the result map without them. *)
Theorem dropped_entries_leave_no_trace (consoleWidth : option nat)
    (result : IExecutionResult) :
  gather {| operationResults := filter kept (operationResults result) |}
  = gather result
  /\ _printTimeline consoleWidth
       {| operationResults := filter kept (operationResults result) |}
     = _printTimeline consoleWidth result.
Proof.
  destruct result as [ops]. cbn [operationResults].
  split; [apply gather_filter_kept|].
  unfold _printTimeline. now rewrite gather_filter_kept.
Qed.

(** ** What a run writes *)

(** The second loop either draws every row, or stops at the first row
    that cannot be drawn, having written the rows before it. *)
Lemma printRows_outcome ly rows :
  forall busy out,
  (exists lines,
      Forall2 (fun r line => row ly r = JS.Ok line) rows lines
      /\ printRows ly rows busy out = (fold_left trackBusy rows busy, out ++ lines, None))
  \/ (exists pre r post lines e,
        rows = pre ++ r :: post
        /\ Forall2 (fun x line => row ly x = JS.Ok line) pre lines
        /\ row ly r = JS.Throw e
        /\ printRows ly rows busy out
           = (fold_left trackBusy (pre ++ [r]) busy, out ++ lines, Some e)).
Proof.
  induction rows as [|r rows IH]; intros busy out.
  - left. exists []. simpl. rewrite app_nil_r. split; [constructor | reflexivity].
  - simpl. destruct (row ly r) as [line|e] eqn:Hr.
    + destruct (IH (trackBusy busy r) (out ++ [line]))
        as [(lines & Hf & Hp)|(pre & x & post & lines & e & -> & Hf & Hx & Hp)].
      * left. exists (line :: lines). rewrite Hp, <- app_assoc.
        split; [now constructor | reflexivity].
      * right. exists (r :: pre), x, post, (line :: lines), e.
        rewrite Hp, <- app_assoc. repeat split; auto.
    + right. exists [], r, rows, [], e. simpl. rewrite app_nil_r.
      repeat split; auto.
Qed.

Lemma Forall2_in_left {A B} (R : A -> B -> Prop) l l' x :
  Forall2 R l l' -> In x l -> exists y, R x y.
Proof.
  induction 1 as [|a b l l' Hab Hl IH]; intros Hx; [destruct Hx|].
  destruct Hx as [<-|Hx]; [now exists b | now apply IH].
Qed.

(** The two ways a run can go, as [printRows_outcome] splits them. *)
Lemma report_rows_outcome consoleWidth result :
  let g := gather result in
  let ly := layoutOf consoleWidth g in
  let rows := sortByStart (data g) in
  let rule : Line := [text (JS.repeatNat "=" (maxWidth ly))] in
  let o := _printTimeline consoleWidth result in
  (exists lines,
      Forall2 (fun r line => row ly r = JS.Ok line) rows lines
      /\ thrown o = None)
  \/ (exists pre r post lines e,
        rows = pre ++ r :: post
        /\ Forall2 (fun x line => row ly x = JS.Ok line) pre lines
        /\ row ly r = JS.Throw e
        /\ thrown o = Some e
        /\ written o = [[text ""]; rule] ++ lines).
Proof.
  cbv zeta. unfold _printTimeline. cbv zeta.
  match goal with
  | |- context [printRows ?a ?b ?c ?d] =>
      destruct (printRows_outcome a b c d)
        as [(lines & Hf & Hp)|(pre & r & post & lines & e & Hrows & Hf & Hr & Hp)];
      rewrite Hp
  end.
  - left. exists lines. split; [exact Hf | reflexivity].
  - right. exists pre, r, post, lines, e.
    repeat (split; [assumption || reflexivity|]). reflexivity.
Qed.

(** X8: a run begins with a blank line and a rule and then writes the
    rows in start order.  Either every row can be drawn: then nothing is
    thrown and the report goes on with the second rule, the four legend
    and summary lines, the phase block and a blank line, which makes one
    line per eligible operation, eight more, and the phase block.  Or the
    run stops at the first row that cannot be drawn: it throws what that
    row throws, and after the blank line and the rule it has written the
    rows before that one and nothing else. *)
Theorem report_layout (consoleWidth : option nat) (result : IExecutionResult) :
  let g := gather result in
  let ly := layoutOf consoleWidth g in
  let rows := sortByStart (data g) in
  let rule : Line := [text (JS.repeatNat "=" (maxWidth ly))] in
  let o := _printTimeline consoleWidth result in
  (exists lines,
      Forall2 (fun r line => row ly r = JS.Ok line) rows lines
      /\ thrown o = None
      /\ written o
         = [[text ""]; rule] ++ lines ++ [rule]
             ++ summaryLines (maxWidth ly) (summaryOf g ly (busyCpusOf rows))
             ++ phaseSection (durationByPhase g) ++ [[text ""]]
      /\ List.length (written o)
         = (List.length (filter kept (operationResults result)) + 8
            + List.length (phaseSection (durationByPhase g)))%nat)
  \/ (exists pre r post lines e,
        rows = pre ++ r :: post
        /\ Forall2 (fun x line => row ly x = JS.Ok line) pre lines
        /\ row ly r = JS.Throw e
        /\ thrown o = Some e
        /\ written o = [[text ""]; rule] ++ lines).
Proof.
  destruct result as [ops]. cbv zeta. cbn [operationResults].
  unfold _printTimeline. cbv zeta.
  match goal with
  | |- context [printRows ?a ?b ?c ?d] =>
      destruct (printRows_outcome a b c d)
        as [(lines & Hf & Hp)|(pre & r & post & lines & e & Hrows & Hf & Hr & Hp)];
      rewrite Hp
  end.
  - left. exists lines. split; [exact Hf|]. split; [reflexivity|].
    cbn [written]. split.
    + rewrite <- !app_assoc. reflexivity.
    + rewrite !length_app. cbn [List.length].
      rewrite <- (Forall2_length Hf).
      rewrite (Permutation_length (sortByStart_perm _)).
      destruct (gather_spec ops) as (Hd & _). cbv zeta in Hd.
      rewrite Hd, length_map. unfold summaryLines. cbn [List.length]. lia.
  - right. exists pre, r, post, lines, e.
    repeat (split; [assumption || reflexivity|]). reflexivity.
Qed.

(** ** A record without a name *)

(** In a chart of non-negative width over a wall clock that is not of
    zero length the chart of every gathered record can be drawn. *)
Lemma chart_drawn_in_wall_clock consoleWidth ops :
  let g := gather {| operationResults := ops |} in
  let ly := layoutOf consoleWidth g in
  (forall r, In r (data g) -> startTime r <= endTime r) ->
  JS.isZero (allDuration ly) = false ->
  (0 <= chartWidth ly)%Z ->
  forall r, In r (data g) ->
    exists bar,
      chart (status r)
        (columnIndex (startTime r) (chartStart ly) (chartWidth ly) (allDuration ly))
        (columnIndex (endTime r) (chartStart ly) (chartWidth ly) (allDuration ly))
        (chartWidth ly)
      = JS.Ok bar.
Proof.
  cbv zeta. intros Hle Hnz Hw r Hr.
  destruct (gather_spec ops) as (Hd & _ & _ & _ & _ & Hsome).
  cbv zeta in Hsome.
  destruct Hsome as (a & b & Ha & Hb & [Hina Hlow] & [_ Hup]).
  { intros C. rewrite Hd, C in Hr. destruct Hr. }
  pose proof (allDuration_kept consoleWidth ops a b Ha Hb) as Hdur.
  rewrite Hdur in Hnz. simpl in Hnz. apply Qeq_bool_neq in Hnz.
  set (g := gather {| operationResults := ops |}) in *.
  assert (Hpos : 0 < b + - a).
  { apply in_map_iff in Hina. destruct Hina as (r0 & <- & Hr0).
    pose proof (Hle r0 Hr0). pose proof (Hup r0 Hr0).
    destruct (Qlt_le_dec 0 (b + - startTime r0)) as [H1|H1]; [exact H1|].
    exfalso. apply Hnz. lra. }
  destruct (scaled_position_bounds a (b + - a) (startTime r) (endTime r)
              (chartWidth (layoutOf consoleWidth g)))
    as (Hi & Hij & Hj); auto.
  { pose proof (Hup r Hr). lra. }
  assert (Hcs : chartStart (layoutOf consoleWidth g) = JS.Fin a) by exact Ha.
  rewrite Hdur, Hcs, !columnIndex_finite by exact Hnz.
  rewrite chart_in_range by assumption. eexists. reflexivity.
Qed.

(** X9: [longestNameLength] allows for an operation without a name, but
    the row does not: in a chart of non-negative width over a wall clock
    that is not of zero length (every record with [startTime <= endTime]),
    a gathered record whose name is undefined makes the run throw a
    [TypeError] at [name.padStart], before the summary is written. *)
Theorem nameless_record_throws (consoleWidth : option nat) (result : IExecutionResult) :
  let g := gather result in
  let ly := layoutOf consoleWidth g in
  (forall r, In r (data g) -> startTime r <= endTime r) ->
  JS.isZero (allDuration ly) = false ->
  (0 <= chartWidth ly)%Z ->
  (exists r, In r (data g) /\ name r = None) ->
  thrown (_printTimeline consoleWidth result) = Some JS.TypeError
  /\ (List.length (written (_printTimeline consoleWidth result))
      < 2 + List.length (data g))%nat.
Proof.
  destruct result as [ops]. cbv zeta. intros Hle Hnz Hw (r0 & Hr0 & Hname0).
  pose proof (chart_drawn_in_wall_clock consoleWidth ops Hle Hnz Hw) as Hchart.
  cbv zeta in Hchart.
  destruct (report_rows_outcome consoleWidth {| operationResults := ops |})
    as [(lines & Hf & _)|(pre & r & post & lines & e & Hrows & Hf & Hr & Ht & Hwr)].
  - exfalso.
    assert (Hin : In r0 (sortByStart (data (gather {| operationResults := ops |}))))
      by (now apply (proj2 (sortByStart_In _ _))).
    destruct (Forall2_in_left _ _ _ _ Hf Hin) as (line & Hline).
    destruct (Hchart r0 Hr0) as (bar & Hbar).
    unfold row in Hline. rewrite Hbar, Hname0 in Hline. discriminate.
  - assert (Hin : In r (data (gather {| operationResults := ops |}))).
    { apply (proj1 (sortByStart_In _ _)). rewrite Hrows.
      apply in_or_app. right. now left. }
    destruct (Hchart r Hin) as (bar & Hbar).
    unfold row in Hr. rewrite Hbar in Hr. cbn [JS.bind] in Hr.
    destruct (name r); [discriminate|]. inversion Hr; subst e.
    split; [exact Ht|].
    rewrite Hwr. cbn [List.length app].
    rewrite <- (Forall2_length Hf).
    rewrite <- (Permutation_length
                  (sortByStart_perm (data (gather {| operationResults := ops |})))).
    rewrite Hrows, length_app. simpl. lia.
Qed.

(** A terminal of the default width, two overlapping operations, the
    second of which has no name. *)
Lemma nameless_record_throws_witness :
  thrown (_printTimeline None resultNameless) = Some JS.TypeError
  /\ List.length (written (_printTimeline None resultNameless)) = 3%nat.
Proof.
  destruct (nameless_record_throws None resultNameless) as [Ht _].
  - intros r [<-|[<-|[]]]; simpl; lra.
  - reflexivity.
  - vm_compute. discriminate.
  - eexists. split; [right; left; reflexivity | reflexivity].
  - split; [exact Ht | reflexivity].
Defined.


(** ** The phase block *)

Lemma fold_max_names m acc :
  fold_left
    (fun acc (kv : IPhase * Q) =>
       let len := String.length (phaseName (fst kv)) in
       if (acc <? len)%nat then len else acc)
    m acc
  = Nat.max acc (list_max (map (fun kv => String.length (phaseName (fst kv))) m)).
Proof.
  revert acc. induction m as [|kv m IH]; intros acc; simpl; [lia|].
  rewrite IH. destruct (Nat.ltb_spec acc (String.length (phaseName (fst kv)))); lia.
Qed.

(** X11: the name column of the phase block is as wide as the longest
    phase name and at least 16 characters wide; the block has its header
    and then one row per entry of [durationByPhase], in the order of the
    entries, each made of two spaces, the phase name padded on the left to
    the width of the column, a space, and the duration with one decimal
    and an "s". *)
Theorem phase_block_aligned (m : list (IPhase * Q)) :
  (16 <= maxPhaseNameOf m)%nat
  /\ (forall kv, In kv m ->
        (String.length (phaseName (fst kv)) <= maxPhaseNameOf m)%nat)
  /\ (maxPhaseNameOf m = 16%nat
      \/ exists kv, In kv m /\ String.length (phaseName (fst kv)) = maxPhaseNameOf m)
  /\ List.length (tl (phaseSection m)) = List.length m
  /\ (m <> [] -> hd [] (phaseSection m) = [text "BY PHASE:"])
  /\ Forall2
       (fun kv line =>
          exists pad,
            line = [ text "  ";
                     paint cyan (JS.repeatNat " " pad ++ phaseName (fst kv));
                     text (" " ++ JS.QtoFixed1 (snd kv) ++ "s") ]
            /\ (pad + String.length (phaseName (fst kv)) = maxPhaseNameOf m)%nat)
       m (tl (phaseSection m)).
Proof.
  unfold maxPhaseNameOf. rewrite fold_max_names.
  set (names := map (fun kv => String.length (phaseName (fst kv))) m).
  assert (Hnames : forall kv, In kv m ->
            (String.length (phaseName (fst kv)) <= Nat.max 16 (list_max names))%nat).
  { intros kv Hkv.
    assert (String.length (phaseName (fst kv)) <= list_max names)%nat.
    { apply list_max_ge_In. apply in_map_iff. now exists kv. }
    lia. }
  split; [lia|]. split; [exact Hnames|].
  split.
  { destruct (Nat.le_gt_cases (list_max names) 16) as [H|H]; [left; lia|].
    right. assert (Hin : In (list_max names) names).
    { apply list_max_attained. intros C. rewrite C in H. simpl in H. lia. }
    apply in_map_iff in Hin. destruct Hin as (kv & E & Hkv).
    exists kv. split; [exact Hkv | lia]. }
  split.
  { unfold phaseSection. destruct m; cbn [List.length Nat.ltb Nat.leb tl];
      [reflexivity | apply length_map]. }
  split.
  { intros H. destruct m; [now elim H | reflexivity]. }
  assert (Hrows : forall w l,
            (forall kv, In kv l -> (String.length (phaseName (fst kv)) <= w)%nat) ->
            Forall2
              (fun kv line =>
                 exists pad,
                   line = [ text "  ";
                            paint cyan (JS.repeatNat " " pad ++ phaseName (fst kv));
                            text (" " ++ JS.QtoFixed1 (snd kv) ++ "s") ]
                   /\ (pad + String.length (phaseName (fst kv)) = w)%nat)
              l
              (map (fun kv : IPhase * Q =>
                      [ text "  ";
                        paint cyan (JS.padStart (phaseName (fst kv)) (Z.of_nat w));
                        text (" " ++ JS.QtoFixed1 (snd kv) ++ "s") ]) l)).
  { intros w l Hl. induction l as [|kv l IH]; [constructor|].
    cbn [map]. constructor.
    - exists (w - String.length (phaseName (fst kv)))%nat.
      assert (String.length (phaseName (fst kv)) <= w)%nat by (apply Hl; now left).
      split; [|lia]. unfold JS.padStart. repeat f_equal. lia.
    - apply IH. intros x Hx. apply Hl. now right. }
  specialize (Hrows (Nat.max 16 (list_max names)) m Hnames).
  unfold phaseSection. destruct m as [|kv0 m0]; [constructor|].
  cbn [List.length Nat.ltb Nat.leb tl].
  unfold maxPhaseNameOf. rewrite fold_max_names. exact Hrows.
Qed.

Lemma firstOccurrences_snoc l x :
  firstOccurrences (l ++ [x])
  = if existsb (Nat.eqb x) (firstOccurrences l)
    then firstOccurrences l else firstOccurrences l ++ [x].
Proof.
  unfold firstOccurrences. rewrite rev_app_distr. cbn [rev app nodup].
  destruct (in_dec Nat.eq_dec x (rev l)) as [Hin|Hnin].
  - assert (E : existsb (Nat.eqb x) (rev (nodup Nat.eq_dec (rev l))) = true).
    { apply existsb_exists. exists x. split; [|apply Nat.eqb_refl].
      apply -> in_rev. now apply nodup_In. }
    now rewrite E.
  - assert (E : existsb (Nat.eqb x) (rev (nodup Nat.eq_dec (rev l))) = false).
    { destruct (existsb _ _) eqn:C; [|reflexivity].
      apply existsb_exists in C. destruct C as (y & Hy & Exy).
      apply Nat.eqb_eq in Exy. subst y.
      apply in_rev in Hy. apply nodup_In in Hy. contradiction. }
    rewrite E. reflexivity.
Qed.

Lemma existsb_key_ids (m : list (IPhase * Q)) (p : IPhase) :
  existsb (fun kv => Nat.eqb (phaseId (fst kv)) (phaseId p)) m
  = existsb (Nat.eqb (phaseId p)) (map (fun kv => phaseId (fst kv)) m).
Proof.
  induction m as [|kv m IH]; simpl; [reflexivity|].
  now rewrite IH, (Nat.eqb_sym (phaseId p)).
Qed.

(** X12: the entries of [durationByPhase], and with them the rows of the
    phase block, come in the order in which the phases are first met among
    the eligible operations of the result map, one entry per phase. *)
Theorem phases_in_first_seen_order (result : IExecutionResult) :
  map (fun kv => phaseId (fst kv)) (durationByPhase (gather result))
  = firstOccurrences (phaseIdsOf (filter kept (operationResults result)))
  /\ (forall id,
        In id (map (fun kv => phaseId (fst kv)) (durationByPhase (gather result)))
        <-> In id (phaseIdsOf (filter kept (operationResults result)))).
Proof.
  destruct result as [ops]. cbn [operationResults].
  assert (H : map (fun kv => phaseId (fst kv))
                  (durationByPhase (gather {| operationResults := ops |}))
              = firstOccurrences (phaseIdsOf (filter kept ops))).
  { induction ops as [|entry ops IH] using rev_ind; [reflexivity|].
    rewrite gather_snoc, filter_snoc. destruct (kept entry) eqn:K;
      [|now rewrite (gatherStep_dropped _ _ K)].
    rewrite (gatherStep_kept _ _ K). cbn [durationByPhase].
    unfold phaseIdsOf. rewrite flat_map_app. cbn [flat_map].
    fold (phaseIdsOf (filter kept ops)).
    destruct (Operation.associatedPhase (fst entry)) as [p|].
    - rewrite app_nil_r, firstOccurrences_snoc, phaseSet_keys, existsb_key_ids.
      now rewrite IH.
    - now rewrite !app_nil_r. }
  split; [exact H|].
  intros id. rewrite H. unfold firstOccurrences.
  rewrite <- in_rev, nodup_In, <- in_rev. reflexivity.
Qed.

Example phases_first_seen_example :
  firstOccurrences [2; 1; 2; 3; 1]%nat = [2; 1; 3]%nat.
Proof. reflexivity. Qed.

(** ** Width of the summary lines *)

(** X13: each of the four legend and summary lines ends with its summary
    text, pushed to the right by as many spaces as bring the line to the
    console width; a line whose legend and text together are longer than
    the console width gets no space and is longer than the rules by the
    excess. *)
Theorem summary_lines_right_aligned (w : nat) (sm : Summary) :
  let s0 := ("Total Work: " ++ JS.toFixed1 (totalWork sm) ++ "s")%string in
  let s1 := ("Wall Clock: " ++ JS.toFixed1 (wallClock sm) ++ "s")%string in
  let s2 := ("Max Parallelism Used: " ++ JS.natToString (usedCpus sm))%string in
  let s3 := ("Avg Parallelism Used: " ++ JS.toFixed1 (avgParallelism sm))%string in
  let pad (used : nat) := JS.repeatNat " " (w - used) in
  summaryLines w sm
  = [ [text (legend0 ++ pad (String.length legend0 + String.length s0)%nat ++ s0)];
      [text (legend1 ++ pad (String.length legend1 + String.length s1)%nat ++ s1)];
      [text (pad (String.length s2) ++ s2)];
      [text (pad (String.length s3) ++ s3)] ]
  /\ map glyphs (summaryLines w sm)
     = [ Nat.max w (String.length legend0 + String.length s0);
         Nat.max w (String.length legend1 + String.length s1);
         Nat.max w (String.length s2);
         Nat.max w (String.length s3) ]
  /\ Forall (fun line => (w <= glyphs line)%nat) (summaryLines w sm).
Proof.
  cbv zeta.
  assert (Hpad : forall (s : string) (used : nat),
            JS.padStart s (Z.of_nat w - Z.of_nat used)
            = (JS.repeatNat " " (w - (used + String.length s)) ++ s)%string).
  { intros s used. unfold JS.padStart. repeat f_equal. lia. }
  assert (Hpad0 : forall s : string,
            JS.padStart s (Z.of_nat w)
            = (JS.repeatNat " " (w - String.length s) ++ s)%string).
  { intros s. unfold JS.padStart. repeat f_equal. lia. }
  unfold summaryLines. cbv zeta. rewrite !Hpad, !Hpad0.
  split; [reflexivity|].
  assert (Hg : map glyphs
                 [ [text (legend0 ++ JS.repeatNat " "
                            (w - (String.length legend0
                                  + String.length ("Total Work: " ++ JS.toFixed1 (totalWork sm) ++ "s")))
                            ++ "Total Work: " ++ JS.toFixed1 (totalWork sm) ++ "s")];
                   [text (legend1 ++ JS.repeatNat " "
                            (w - (String.length legend1
                                  + String.length ("Wall Clock: " ++ JS.toFixed1 (wallClock sm) ++ "s")))
                            ++ "Wall Clock: " ++ JS.toFixed1 (wallClock sm) ++ "s")];
                   [text (JS.repeatNat " "
                            (w - String.length ("Max Parallelism Used: " ++ JS.natToString (usedCpus sm)))
                            ++ "Max Parallelism Used: " ++ JS.natToString (usedCpus sm))];
                   [text (JS.repeatNat " "
                            (w - String.length ("Avg Parallelism Used: " ++ JS.toFixed1 (avgParallelism sm)))
                            ++ "Avg Parallelism Used: " ++ JS.toFixed1 (avgParallelism sm))] ]
               = [ Nat.max w (String.length legend0
                              + String.length ("Total Work: " ++ JS.toFixed1 (totalWork sm) ++ "s"));
                   Nat.max w (String.length legend1
                              + String.length ("Wall Clock: " ++ JS.toFixed1 (wallClock sm) ++ "s"));
                   Nat.max w (String.length ("Max Parallelism Used: " ++ JS.natToString (usedCpus sm)));
                   Nat.max w (String.length ("Avg Parallelism Used: " ++ JS.toFixed1 (avgParallelism sm))) ]).
  { cbn [map glyphs fold_right spanText text].
    rewrite !(length_app_string legend0), !(length_app_string legend1).
    rewrite !(length_app_string (JS.repeatNat " " _)), !length_repeatNat.
    cbn [String.length].
    repeat (apply (f_equal2 (@cons nat)); [lia|]). reflexivity. }
  split; [exact Hg|].
  apply Forall_forall. intros line Hline.
  apply (in_map glyphs) in Hline. rewrite Hg in Hline.
  destruct Hline as [<-|[<-|[<-|[<-|[]]]]]; lia.
Qed.

(** ** Rows on 40 columns *)

Lemma rows_fill_the_width_witness :
  thrown (_printTimeline (Some 40%nat) resultABC) = None
  /\ forall r, In r (sortByStart (data (gather resultABC))) ->
       exists line, row layoutABC r = JS.Ok line /\ glyphs line = 40%nat.
Proof.
  destruct (rows_fill_the_width (Some 40%nat) resultABC) as [Hrows Ht].
  - discriminate.
  - intros r [<-|[<-|[<-|[]]]]; simpl; lra.
  - intros r [<-|[<-|[<-|[]]]]; discriminate.
  - reflexivity.
  - vm_compute. discriminate.
  - split; [exact Ht | exact Hrows].
Defined.

(** ** The width of a row *)

Lemma Forall2_in_both {A B} (R : A -> B -> Prop) l l' x :
  Forall2 R l l' -> In x l -> exists y, In y l' /\ R x y.
Proof.
  induction 1 as [|a b l l' Hab Hl IH]; intros Hx; [destruct Hx|].
  destruct Hx as [<-|Hx].
  - exists b. split; [now left | exact Hab].
  - destruct (IH Hx) as (y & Hy & Hxy). exists y. split; [now right | exact Hxy].
Qed.

(** The name and the duration string of a gathered record fit the two
    columns the first loop measured. *)
Lemma columns_fit ops r :
  let g := gather {| operationResults := ops |} in
  In r (data g) ->
  (forall n, name r = Some n -> (String.length n <= longestNameLength g)%nat)
  /\ (String.length (durationString r) <= longestDurationLength g)%nat.
Proof.
  cbv zeta. intros Hr.
  destruct (gather_spec ops) as (Hd & Hn & Hl & _). cbv zeta in *.
  rewrite Hd in Hr. apply in_map_iff in Hr. destruct Hr as (e & He & Hin).
  rewrite Hn, Hl. split.
  - intros n Hname. transitivity (nameLengthOf (fst e)).
    + unfold nameLengthOf. rewrite <- He in Hname. simpl in Hname.
      now rewrite Hname.
    + apply list_max_ge_In. apply in_map_iff. now exists e.
  - rewrite <- He. apply list_max_ge_In. apply in_map_iff. now exists e.
Qed.

(** A run that throws nothing has written the line of every record. *)
Lemma drawn_rows_are_written consoleWidth result r line :
  let g := gather result in
  let ly := layoutOf consoleWidth g in
  In r (data g) ->
  row ly r = JS.Ok line ->
  thrown (_printTimeline consoleWidth result) = None ->
  In line (written (_printTimeline consoleWidth result)).
Proof.
  cbv zeta. intros Hr Hline. unfold _printTimeline. cbv zeta.
  match goal with
  | |- context [printRows ?a ?b ?c ?d] =>
      destruct (printRows_outcome a b c d)
        as [(lines & Hf & Hp)|(pre & x & post & lines & e & Hrows & Hf & Hx & Hp)];
      rewrite Hp
  end.
  - intros _. cbn [written].
    apply (proj2 (sortByStart_In _ _)) in Hr.
    destruct (Forall2_in_both _ _ _ _ Hf Hr) as (y & Hy & Hry).
    rewrite Hline in Hry. inversion Hry; subst y.
    apply in_or_app. left. apply in_or_app. right. exact Hy.
  - discriminate.
Qed.

(** C9: in the chart of a run, a record with a name whose column indices
    are the integers [s] and [e] with [0 <= s <= e <= chartWidth] gets a
    bar of [s] filler characters, then [e - s + 1] status characters (at
    least one), then [chartWidth - e] filler characters: [chartWidth + 1]
    characters in all.  Its line is the name padded to the longest name, a
    space, the bar, a space, and the duration padded to the longest
    duration with an "s": [maxWidth] characters, whatever the record, so
    that all such rows of the chart are equally wide; a run that throws
    nothing has written that line. *)
Theorem chart_row_width (consoleWidth : option nat) (result : IExecutionResult)
    (r : ITimelineRecord) (n : string) (s e : Z) :
  let g := gather result in
  let ly := layoutOf consoleWidth g in
  In r (data g) ->
  name r = Some n ->
  columnIndex (startTime r) (chartStart ly) (chartWidth ly) (allDuration ly)
    = JS.ofZ s ->
  columnIndex (endTime r) (chartStart ly) (chartWidth ly) (allDuration ly)
    = JS.ofZ e ->
  (0 <= s)%Z -> (s <= e)%Z -> (e <= chartWidth ly)%Z ->
  exists lead bar trail line,
    chart (status r)
      (columnIndex (startTime r) (chartStart ly) (chartWidth ly) (allDuration ly))
      (columnIndex (endTime r) (chartStart ly) (chartWidth ly) (allDuration ly))
      (chartWidth ly)
      = JS.Ok [paint gray lead;
               paint (TIMELINE_CHART_COLORIZER (status r)) bar;
               paint gray trail]
    /\ lead = JS.repeatNat "-" (Z.to_nat s)
    /\ bar = JS.repeatNat (TIMELINE_CHART_SYMBOLS (status r)) (Z.to_nat (e - s + 1))
    /\ trail = JS.repeatNat "-" (Z.to_nat (chartWidth ly - e))
    /\ String.length lead = Z.to_nat s
    /\ String.length bar = Z.to_nat (e - s + 1)
    /\ (1 <= String.length bar)%nat
    /\ String.length trail = Z.to_nat (chartWidth ly - e)
    /\ Z.of_nat (String.length lead + String.length bar + String.length trail)
         = (chartWidth ly + 1)%Z
    /\ row ly r = JS.Ok line
    /\ line = [ paint cyan (JS.padStart n (Z.of_nat (longestNameLength g)));
                text " ";
                paint gray lead;
                paint (TIMELINE_CHART_COLORIZER (status r)) bar;
                paint gray trail;
                text " ";
                paint white (JS.padStart (durationString r)
                               (Z.of_nat (longestDurationLength g)) ++ "s") ]
    /\ String.length (JS.padStart n (Z.of_nat (longestNameLength g)))
       = longestNameLength g
    /\ String.length (JS.padStart (durationString r)
                        (Z.of_nat (longestDurationLength g)))
       = longestDurationLength g
    /\ glyphs line = maxWidthOf consoleWidth
    /\ (thrown (_printTimeline consoleWidth result) = None ->
        In line (written (_printTimeline consoleWidth result))).
Proof.
  destruct result as [ops]. cbv zeta. intros Hr Hn Hsi Hei Hs Hse Hew.
  destruct (columns_fit ops r Hr) as [Hfn Hfd]. specialize (Hfn n Hn).
  pose proof (drawn_rows_are_written consoleWidth {| operationResults := ops |} r)
    as Hwritten. cbv zeta in Hwritten.
  set (g := gather {| operationResults := ops |}) in *.
  assert (Hcw : chartWidth (layoutOf consoleWidth g)
                = (Z.of_nat (maxWidthOf consoleWidth)
                   - Z.of_nat (longestNameLength g)
                   - Z.of_nat (longestDurationLength g) - 4)%Z) by reflexivity.
  assert (Hnw : nameWidth (layoutOf consoleWidth g) = longestNameLength g)
    by reflexivity.
  assert (Hdw : durationWidth (layoutOf consoleWidth g) = longestDurationLength g)
    by reflexivity.
  set (ly := layoutOf consoleWidth g) in *. clearbody ly.
  pose proof (chart_in_range (status r) s e (chartWidth ly) Hs Hse Hew) as Hc.
  assert (Hrow : row ly r
                 = JS.Ok [ paint cyan (JS.padStart n (Z.of_nat (longestNameLength g)));
                           text " ";
                           paint gray (JS.repeatNat "-" (Z.to_nat s));
                           paint (TIMELINE_CHART_COLORIZER (status r))
                             (JS.repeatNat (TIMELINE_CHART_SYMBOLS (status r))
                                (Z.to_nat (e - s + 1)));
                           paint gray (JS.repeatNat "-" (Z.to_nat (chartWidth ly - e)));
                           text " ";
                           paint white (JS.padStart (durationString r)
                                          (Z.of_nat (longestDurationLength g)) ++ "s") ]).
  { unfold row. rewrite Hsi, Hei, Hc, Hn, Hnw, Hdw. reflexivity. }
  eexists _, _, _, _. split; [rewrite Hsi, Hei; exact Hc|].
  do 3 (split; [reflexivity|]).
  rewrite !length_repeatNat, symbol_length, !padStart_length.
  cbn [String.length].
  do 5 (split; [lia|]).
  split; [exact Hrow|]. split; [reflexivity|].
  do 2 (split; [lia|]).
  split.
  - unfold glyphs. cbn [fold_right app spanText text map].
    rewrite length_app_string, !padStart_length, !length_repeatNat, symbol_length.
    cbn [String.length]. lia.
  - apply Hwritten; assumption.
Qed.

(** Row A of the three sample operations on 40 columns: columns 0 to 9 of
    a chart of 32. *)
Lemma chart_row_width_witness :
  exists line,
    row layoutABC rowA = JS.Ok line
    /\ map spanText line
       = [ "A"; " "; ""; "##########"; "-----------------------"; " "; "3.0s" ]%string
    /\ glyphs line = 40%nat
    /\ In line (written (_printTimeline (Some 40%nat) resultABC)).
Proof.
  destruct (chart_row_width (Some 40%nat) resultABC rowA "A" 0 9)
    as (lead & bar & trail & line & _ & Hl & Hb & Ht & _ & _ & _ & _ & _
        & Hrow & Hline & _ & _ & Hg & Hw).
  - left. reflexivity.
  - reflexivity.
  - reflexivity.
  - reflexivity.
  - lia.
  - lia.
  - vm_compute. discriminate.
  - exists line. split; [exact Hrow|]. split; [|split; [exact Hg|]].
    + rewrite Hline, Hl, Hb, Ht. reflexivity.
    + apply Hw. reflexivity.
Defined.

(** ** A wall clock of zero length: what is written *)


Lemma sumQ_zero l : (forall x, In x l -> x == 0) -> sumQ l == 0.
Proof.
  induction l as [|x l IH]; intros H; simpl; [reflexivity|].
  rewrite (H x (or_introl eq_refl)), IH; [ring|].
  intros y Hy. apply H. now right.
Qed.




(** ** Average parallelism: what holds of the quotient *)

(** C5, as worded, fails in two ways.  One operation that starts and ends
    in the same millisecond is a non-empty set with
    [startTime <= endTime]; its work and its wall clock are both 0 and the
    average 0 / 0 is [NaN], neither at least 0 nor at most the one CPU
    used.  And for two operations one after the other, 1000 ms to 1100 ms
    and 1100 ms to 1300 ms, one CPU is used, while the doubles the code
    computes are 0.1 + 0.2 = 0.30000000000000004 for the work and 0.3 for
    the wall clock: the average is 1.0000000000000002, above 1. *)
Lemma average_parallelism_counterexample :
  (List.length (data (gather resultInstant)) = 1%nat
   /\ Forall (fun r => startTime r <= endTime r) (data (gather resultInstant))
   /\ usedCpus summaryInstant = 1%nat
   /\ avgParallelism summaryInstant = JS.NaN
   /\ JS.le (JS.ofZ 0) (avgParallelism summaryInstant) = false
   /\ JS.le (avgParallelism summaryInstant) (JS.ofNat (usedCpus summaryInstant))
      = false)
  /\ (map (fun r => (startTime r, endTime r)) (data (gather resultBackToBack))
      = [(1000, 1100); (1100, 1300)]
      /\ List.length (busyCpusOf (sortByStart (data (gather resultBackToBack))))
         = 1%nat
      /\ Binary64.workDuration rowsBackToBack64 = 0x1.3333333333334p-2%float
      /\ Binary64.allDurationSeconds rowsBackToBack64 = 0x1.3333333333333p-2%float
      /\ Binary64.avgParallelism rowsBackToBack64 = 0x1.0000000000001p+0%float
      /\ PrimFloat.ltb 1%float (Binary64.avgParallelism rowsBackToBack64) = true).
Proof.
  split.
  - repeat split. repeat constructor. simpl. lra.
  - repeat split.
Qed.

(** C5, amended: when records were gathered, each with
    [startTime <= endTime], and the wall clock [allDuration] is not 0, the
    wall clock is positive and the average parallelism
    [workDuration / allDurationSeconds] is a finite number that is at least
    0.  At least one CPU is used, and the sum of the lengths
    [endTime - startTime] of the records, taken exactly, is at most the
    number of busy CPUs times [allEnd - allStart]: the exact quotient is
    at most the realized maximum parallelism, which the quotient of the
    rounded sums can exceed by the rounding only. *)
Theorem average_parallelism_bounds (consoleWidth : option nat)
    (result : IExecutionResult) :
  let g := gather result in
  let ly := layoutOf consoleWidth g in
  let sm := summaryOf g ly (busyCpusOf (sortByStart (data g))) in
  data g <> [] ->
  (forall r, In r (data g) -> startTime r <= endTime r) ->
  JS.isZero (allDuration ly) = false ->
  exists a b q wall,
    allStart g = JS.Fin a /\ allEnd g = JS.Fin b /\ a < b
    /\ wallClock sm = JS.Fin wall
    /\ 0 < wall
    /\ avgParallelism sm = JS.Fin q
    /\ 0 <= q
    /\ JS.le (JS.ofZ 0) (avgParallelism sm) = true
    /\ (1 <= usedCpus sm)%nat
    /\ sumQ (map (fun r => endTime r - startTime r) (data g))
       <= inject_Z (Z.of_nat (usedCpus sm)) * (b - a)
    /\ sumQ (map (fun r => endTime r - startTime r) (data g)) / (b - a)
       <= inject_Z (Z.of_nat (usedCpus sm)).
Proof.
  destruct result as [ops]. cbv zeta. intros Hne Hle Hnz.
  destruct (gather_spec ops) as (Hd & _ & _ & _ & _ & Hsome).
  cbv zeta in Hsome.
  destruct Hsome as (a & b & Ha & Hb & [Hina Hlow] & [Hinb Hup]).
  { intros C. rewrite C in Hd. simpl in Hd. now apply Hne. }
  pose proof (allDuration_kept consoleWidth ops a b Ha Hb) as Hdur.
  rewrite Hdur in Hnz. simpl in Hnz. apply Qeq_bool_neq in Hnz.
  pose proof (workDuration_seconds ops) as Hwork.
  set (g := gather {| operationResults := ops |}) in *.
  set (rows := sortByStart (data g)).
  assert (Hab : a <= b).
  { apply in_map_iff in Hina. destruct Hina as (r & <- & Hr).
    specialize (Hle r Hr). specialize (Hup r Hr). lra. }
  assert (Hpos : 0 < b + - a).
  { destruct (Qlt_le_dec 0 (b + - a)) as [H|H]; [exact H|].
    exfalso. apply Hnz. lra. }
  assert (Hperm : Permutation (map (fun r => endTime r - startTime r) rows)
                              (map (fun r => endTime r - startTime r) (data g))).
  { apply Permutation_map, sortByStart_perm. }
  assert (Hbound : sumQ (map (fun r => endTime r - startTime r) (data g))
                   <= inject_Z (Z.of_nat (List.length (busyCpusOf rows))) * (b - a)).
  { rewrite <- (sumQ_perm _ _ Hperm). apply work_le_cpus_times_wall.
    - intros r Hr. apply Hlow. now apply (proj1 (sortByStart_In _ _)).
    - intros r Hr. apply Hup. now apply (proj1 (sortByStart_In _ _)). }
  assert (Hnonneg : 0 <= sumQ (map (fun r => endTime r - startTime r) (data g))).
  { apply sumQ_nonneg. apply Forall_forall. intros x Hx.
    apply in_map_iff in Hx. destruct Hx as (r & <- & Hr). specialize (Hle r Hr). lra. }
  assert (Hcpu : (1 <= List.length (busyCpusOf rows))%nat).
  { apply busyCpus_nonempty. now apply sortByStart_nonempty. }
  set (W := sumQ (map (fun r => endTime r - startTime r) (data g))) in *.
  set (K := inject_Z (Z.of_nat (List.length (busyCpusOf rows)))) in *.
  unfold summaryOf. cbn [wallClock avgParallelism usedCpus].
  rewrite Hdur, div_by_1000.
  assert (Hwall : 0 < (b + - a) / inject_Z 1000).
  { apply Qlt_shift_div_l; [reflexivity | lra]. }
  rewrite (div_by_positive _ _ Hwall).
  assert (Hq : 0 <= workDuration g / ((b + - a) / inject_Z 1000)).
  { apply Qle_shift_div_l; [exact Hwall|]. rewrite Hwork, Qmult_0_l.
    apply Qle_shift_div_l; [reflexivity|]. now rewrite Qmult_0_l. }
  exists a, b, (workDuration g / ((b + - a) / inject_Z 1000)),
         ((b + - a) / inject_Z 1000).
  split; [exact Ha|]. split; [exact Hb|]. split; [lra|].
  split; [reflexivity|]. split; [exact Hwall|].
  split; [reflexivity|]. split; [exact Hq|].
  split.
  { unfold JS.le, JS.ofZ. apply Qle_bool_iff. exact Hq. }
  split; [exact Hcpu|].
  split; [exact Hbound|].
  apply Qle_shift_div_r; [lra | exact Hbound].
Qed.

(** The three sample operations: 13 s of work in 10 s on two CPUs. *)
Lemma average_parallelism_bounds_witness :
  exists q,
    avgParallelism (summaryOf (gather resultABC) (layoutOf None (gather resultABC))
                      (busyCpusOf (sortByStart (data (gather resultABC)))))
    = JS.Fin q
    /\ 0 <= q
    /\ sumQ (map (fun r => endTime r - startTime r) (data (gather resultABC)))
       <= inject_Z 2 * (11000 - 1000).
Proof.
  destruct (average_parallelism_bounds None resultABC)
    as (a & b & q & wall & Ha & Hb & _ & _ & _ & Hq & Hq0 & _ & _ & Hbound & _).
  - discriminate.
  - intros r [<-|[<-|[<-|[]]]]; simpl; lra.
  - reflexivity.
  - exists q. split; [exact Hq|]. split; [exact Hq0|].
    inversion Ha; inversion Hb; subst a b. exact Hbound.
Defined.

(** ** The phase block and the end of the run *)

Lemma fold_left_Qplus l a : fold_left Qplus l a == a + sumQ l.
Proof.
  revert a. induction l as [|x l IH]; intros a; simpl.
  - ring.
  - rewrite IH. ring.
Qed.

(** A padded string starts with a space, unless nothing was added. *)
Lemma padStart_head s n :
  String.get 0 (JS.padStart s n) = Some " "%char \/ JS.padStart s n = s.
Proof.
  unfold JS.padStart.
  destruct (Z.to_nat (n - Z.of_nat (String.length s))); [right | left]; reflexivity.
Qed.

Lemma header_not_rule w : phaseHeader <> [text (JS.repeatNat "=" (maxWidthOf w))].
Proof.
  unfold maxWidthOf, TIMELINE_WIDTH.
  destruct w as [[|k]|]; discriminate.
Qed.

Lemma header_not_in_summary w sm : ~ In phaseHeader (summaryLines w sm).
Proof.
  unfold summaryLines, phaseHeader, text, legend0, legend1.
  intros [H|[H|[H|[H|[]]]]]; inversion H as [E]; clear H;
    apply (f_equal (String.get 0)) in E;
    match type of E with
    | context [JS.padStart ?s ?n] =>
        destruct (padStart_head s n) as [P|P]; rewrite P in E
    end; discriminate E.
Qed.

(** The line of a record is never the header of the phase block. *)
Lemma header_not_a_row ly rows lines :
  Forall2 (fun r line => row ly r = JS.Ok line) rows lines ->
  ~ In phaseHeader lines.
Proof.
  induction 1 as [|r line rows lines Hr _ IH]; intros Hin; [destruct Hin|].
  destruct Hin as [E|Hin]; [|now apply IH].
  subst line. unfold row in Hr.
  destruct (chart _ _ _ _) as [bar|]; [|discriminate].
  cbn [JS.bind] in Hr. destruct (name r); discriminate.
Qed.

Lemma header_in_phaseSection m : In phaseHeader (phaseSection m) <-> m <> [].
Proof.
  unfold phaseSection. destruct m as [|kv m]; cbn [List.length Nat.ltb Nat.leb].
  - split; [intros [] | intros H; now elim H].
  - split; [discriminate | intros _; now left].
Qed.

(** C8, what the code does: after the first loop [durationByPhase] has
    one entry per phase of an eligible operation, valued with the
    durations of exactly the eligible operations of that phase added up in
    the order of the result map; an operation without a phase adds to no
    entry.  The block that starts with "BY PHASE:" is written after the
    rows and the summary: its header is on the terminal exactly when the
    run throws nothing and some eligible operation has a phase, which the
    run does when every row can be drawn.  A run that ends with an
    exception at one of its rows writes no phase block, whatever the
    phases: on a terminal of 40 columns the two operations of
    [resultLongNames] have a phase each, the first row throws a
    [RangeError] and "BY PHASE:" is not written. *)
Theorem phase_block_needs_complete_run (consoleWidth : option nat)
    (result : IExecutionResult) :
  let g := gather result in
  let ly := layoutOf consoleWidth g in
  let m := durationByPhase g in
  let es := filter kept (operationResults result) in
  let o := _printTimeline consoleWidth result in
  (forall p, phaseGet m p = None <-> forall e, In e es -> ofPhase p e = false)
  /\ (forall p v, phaseGet m p = Some v ->
        v == fold_left Qplus (map durationOf (filter (ofPhase p) es)) 0)
  /\ NoDup (map (fun kv => phaseId (fst kv)) m)
  /\ (forall e p, hasPhase e = false -> ofPhase p e = false)
  /\ (m <> [] <-> exists e, In e es /\ hasPhase e = true)
  /\ (m <> [] -> exists rows, phaseSection m = phaseHeader :: rows
                              /\ List.length rows = List.length m)
  /\ (In phaseHeader (written o)
      <-> thrown o = None /\ exists e, In e es /\ hasPhase e = true)
  /\ (thrown o = None ->
      exists before, written o = before ++ phaseSection m ++ [[text ""]])
  /\ ((forall r, In r (data g) -> startTime r <= endTime r) ->
      (forall r, In r (data g) -> name r <> None) ->
      JS.isZero (allDuration ly) = false ->
      (0 <= chartWidth ly)%Z ->
      thrown o = None)
  /\ ((exists e, In e (filter kept (operationResults resultLongNames))
                 /\ hasPhase e = true)
      /\ _printTimeline (Some 40%nat) resultLongNames
         = {| written := [[text ""]; [text (JS.repeatNat "=" 40)]];
              thrown := Some JS.RangeError |}
      /\ ~ In phaseHeader (written (_printTimeline (Some 40%nat) resultLongNames))).
Proof.
  destruct result as [ops]. cbv zeta. cbn [operationResults].
  destruct (gather_phases ops) as (Hnone & Hsome & Hnd & Hemp). cbv zeta in *.
  set (g := gather {| operationResults := ops |}) in *.
  assert (Hex : durationByPhase g <> [] <->
                exists e, In e (filter kept ops) /\ hasPhase e = true).
  { rewrite Hemp, filter_nil_iff. split.
    - intros H. destruct (existsb hasPhase (filter kept ops)) eqn:E.
      + apply existsb_exists in E. exact E.
      + exfalso. apply H. intros e He.
        destruct (hasPhase e) eqn:P; [|reflexivity].
        assert (T : existsb hasPhase (filter kept ops) = true)
          by (apply existsb_exists; now exists e).
        congruence.
    - intros (e & He & P) H. rewrite (H e He) in P. discriminate. }
  refine (conj _ (conj _ (conj Hnd (conj _ (conj Hex (conj _ (conj _ (conj _ (conj _ _))))))))).
  - intros p. rewrite Hnone. apply filter_nil_iff.
  - intros p v Hv. rewrite (Hsome p v Hv), fold_left_Qplus. ring.
  - intros e p. unfold hasPhase, ofPhase.
    destruct (Operation.associatedPhase (fst e)); [discriminate | reflexivity].
  - intros Hm. destruct (durationByPhase g) as [|kv m]; [now elim Hm|].
    eexists. unfold phaseSection. cbn [List.length Nat.ltb Nat.leb].
    split; [reflexivity|]. now rewrite length_map.
  - rewrite <- Hex, <- header_in_phaseSection.
    unfold _printTimeline. cbv zeta. fold g.
    match goal with
    | |- context [printRows ?a ?b ?c ?d] =>
        destruct (printRows_outcome a b c d)
          as [(lines & Hf & Hp)|(pre & r & post & lines & e & Hrows & Hf & Hr & Hp)];
        rewrite Hp
    end; cbn [written thrown].
    + split.
      * intros Hin. split; [reflexivity|].
        apply in_app_or in Hin. destruct Hin as [Hin|Hin].
        { exfalso. apply in_app_or in Hin. destruct Hin as [[E|[E|[]]]|Hin].
          - discriminate E.
          - symmetry in E. now apply header_not_rule in E.
          - now apply (header_not_a_row _ _ _ Hf). }
        cbn [app] in Hin. destruct Hin as [E|Hin].
        { exfalso. symmetry in E. now apply header_not_rule in E. }
        apply in_app_or in Hin. destruct Hin as [Hin|Hin].
        { exfalso. now apply header_not_in_summary in Hin. }
        apply in_app_or in Hin. destruct Hin as [Hin|[E|[]]]; [exact Hin|].
        discriminate E.
      * intros [_ Hin]. apply in_or_app. right. cbn [app]. right.
        apply in_or_app. right. apply in_or_app. now left.
    + split.
      * intros Hin. exfalso.
        apply in_app_or in Hin. destruct Hin as [[E|[E|[]]]|Hin].
        -- discriminate E.
        -- symmetry in E. now apply header_not_rule in E.
        -- now apply (header_not_a_row _ _ _ Hf).
      * intros [C _]. discriminate C.
  - apply (printTimeline_tail consoleWidth {| operationResults := ops |}).
  - intros Hle Hnames Hnz Hw.
    pose proof (chart_drawn_in_wall_clock consoleWidth ops Hle Hnz Hw) as Hchart.
    cbv zeta in Hchart.
    destruct (printTimeline_completes consoleWidth {| operationResults := ops |})
      as (lines & Hp & _).
    + intros r Hr. apply (proj1 (sortByStart_In _ _)) in Hr.
      destruct (Hchart r Hr) as (bar & Hbar).
      unfold row. unfold g in *. rewrite Hbar. cbn [JS.bind].
      destruct (name r) as [n|] eqn:Hn; [eexists; reflexivity|].
      now elim (Hnames r Hr).
    + rewrite Hp. reflexivity.
  - split; [|split].
    + eexists. split; [left; reflexivity | reflexivity].
    + reflexivity.
    + intros [E|[E|[]]]; discriminate E.
Qed.

(** ** Work and wall clock *)

(** X5: when records were gathered, each with [startTime <= endTime],
    [allStart] and [allEnd] are finite with [allStart <= allEnd]: the wall
    clock [allDuration] is a finite number that is not negative, and so is
    [workDuration].  The wall clock is 0 exactly when every record starts
    and ends at [allStart], and then [workDuration] is 0 as well. *)
Theorem wall_clock_and_work_nonnegative (consoleWidth : option nat)
    (result : IExecutionResult) :
  let g := gather result in
  let ly := layoutOf consoleWidth g in
  data g <> [] ->
  (forall r, In r (data g) -> startTime r <= endTime r) ->
  exists a b,
    allStart g = JS.Fin a /\ allEnd g = JS.Fin b
    /\ a <= b
    /\ JS.isFinite (allDuration ly) = true
    /\ JS.le (JS.ofZ 0) (allDuration ly) = true
    /\ 0 <= workDuration g
    /\ (JS.isZero (allDuration ly) = true <->
        forall r, In r (data g) -> startTime r == a /\ endTime r == a)
    /\ (JS.isZero (allDuration ly) = true -> workDuration g == 0).
Proof.
  destruct result as [ops]. cbv zeta. intros Hne Hle.
  destruct (gather_spec ops) as (Hd & _ & _ & _ & _ & Hsome).
  cbv zeta in Hsome.
  destruct Hsome as (a & b & Ha & Hb & [Hina Hlow] & [Hinb Hup]).
  { intros C. rewrite C in Hd. simpl in Hd. now apply Hne. }
  pose proof (allDuration_kept consoleWidth ops a b Ha Hb) as Hdur.
  pose proof (workDuration_seconds ops) as Hwork.
  set (g := gather {| operationResults := ops |}) in *.
  assert (Hab : a <= b).
  { apply in_map_iff in Hina. destruct Hina as (r & <- & Hr).
    specialize (Hle r Hr). specialize (Hup r Hr). lra. }
  assert (Hnonneg : 0 <= sumQ (map (fun r => endTime r - startTime r) (data g))).
  { apply sumQ_nonneg. apply Forall_forall. intros x Hx.
    apply in_map_iff in Hx. destruct Hx as (r & <- & Hr). specialize (Hle r Hr). lra. }
  assert (Hzero : JS.isZero (allDuration (layoutOf consoleWidth g)) = true <->
                  forall r, In r (data g) -> startTime r == a /\ endTime r == a).
  { rewrite Hdur. cbn [JS.isZero]. split.
    - intros Hz r Hr. apply Qeq_bool_eq in Hz.
      specialize (Hle r Hr). specialize (Hlow r Hr). specialize (Hup r Hr).
      split; lra.
    - intros Hall. apply Qeq_eq_bool.
      apply in_map_iff in Hinb. destruct Hinb as (r & <- & Hr).
      destruct (Hall r Hr) as [_ He]. rewrite He. ring. }
  exists a, b. split; [exact Ha|]. split; [exact Hb|]. split; [exact Hab|].
  rewrite Hdur. split; [reflexivity|].
  split.
  { unfold JS.le, JS.ofZ. apply Qle_bool_iff.
    change (inject_Z 0) with 0. lra. }
  split.
  { rewrite Hwork. apply Qle_shift_div_l; [reflexivity|]. now rewrite Qmult_0_l. }
  rewrite <- Hdur. split; [exact Hzero|].
  intros Hz. rewrite Hwork.
  rewrite (sumQ_zero (map (fun r => endTime r - startTime r) (data g))).
  - reflexivity.
  - intros x Hx. apply in_map_iff in Hx. destruct Hx as (r & <- & Hr).
    destruct (proj1 Hzero Hz r Hr) as [Hs He]. rewrite Hs, He. ring.
Qed.

(** One operation that starts and ends in the same millisecond: the wall
    clock is 0 and so is the work. *)
Lemma wall_clock_and_work_nonnegative_witness :
  JS.le (JS.ofZ 0) (allDuration layoutInstant) = true
  /\ JS.isZero (allDuration layoutInstant) = true
  /\ workDuration (gather resultInstant) == 0.
Proof.
  destruct (wall_clock_and_work_nonnegative (Some 40%nat) resultInstant)
    as (a & b & _ & _ & _ & _ & Hle & _ & _ & Hz).
  - discriminate.
  - intros r [<-|[]]. simpl. lra.
  - split; [exact Hle|]. split; [reflexivity|]. apply Hz. reflexivity.
Defined.

(** ** Where the first bar begins *)

(** The first of the sorted rows has the least start time. *)
Lemma first_row_starts_first rows a :
  leastStart rows a ->
  exists r rest, sortByStart rows = r :: rest /\ startTime r == a.
Proof.
  intros [Hin Hlow].
  apply in_map_iff in Hin. destruct Hin as (r0 & E & Hr0).
  pose proof (sortByStart_ascending rows) as Hs.
  pose proof (proj2 (sortByStart_In rows r0) Hr0) as Hin0.
  destruct (sortByStart rows) as [|r rest] eqn:S; [destruct Hin0|].
  exists r, rest. split; [reflexivity|].
  assert (Hr : In r rows).
  { apply (proj1 (sortByStart_In rows r)). rewrite S. now left. }
  specialize (Hlow r Hr).
  apply StronglySorted_inv in Hs. destruct Hs as [_ Hall].
  destruct Hin0 as [->|Hin0].
  - rewrite E. reflexivity.
  - rewrite Forall_forall in Hall. specialize (Hall r0 Hin0).
    rewrite E in Hall. apply Qle_antisym; assumption.
Qed.

(** X10: in a chart of non-negative width over a wall clock that is not
    of zero length (records gathered, each with [startTime <= endTime]),
    some record starts at [allStart], and the first row written is one of
    them; the bar of every record that starts at [allStart] begins in
    column 0: its chart has no leading filler and at least one status
    character. *)
Theorem first_bar_starts_in_column_0 (consoleWidth : option nat)
    (result : IExecutionResult) :
  let g := gather result in
  let ly := layoutOf consoleWidth g in
  data g <> [] ->
  (forall r, In r (data g) -> startTime r <= endTime r) ->
  JS.isZero (allDuration ly) = false ->
  (0 <= chartWidth ly)%Z ->
  exists a,
    allStart g = JS.Fin a
    /\ (exists r, In r (data g) /\ startTime r = a)
    /\ (exists r rest, sortByStart (data g) = r :: rest /\ startTime r == a)
    /\ (forall r, In r (data g) -> startTime r == a ->
          columnIndex (startTime r) (chartStart ly) (chartWidth ly) (allDuration ly)
          = JS.ofZ 0
          /\ exists bar trail,
               chart (status r)
                 (columnIndex (startTime r) (chartStart ly) (chartWidth ly)
                    (allDuration ly))
                 (columnIndex (endTime r) (chartStart ly) (chartWidth ly)
                    (allDuration ly))
                 (chartWidth ly)
               = JS.Ok [paint gray "";
                        paint (TIMELINE_CHART_COLORIZER (status r)) bar;
                        paint gray trail]
               /\ (1 <= String.length bar)%nat).
Proof.
  destruct result as [ops]. cbv zeta. intros Hne Hle Hnz Hw.
  destruct (gather_spec ops) as (Hd & _ & _ & _ & _ & Hsome).
  cbv zeta in Hsome.
  destruct Hsome as (a & b & Ha & Hb & Hleast & [_ Hup]).
  { intros C. rewrite C in Hd. simpl in Hd. now apply Hne. }
  pose proof (allDuration_kept consoleWidth ops a b Ha Hb) as Hdur.
  rewrite Hdur in Hnz. simpl in Hnz. apply Qeq_bool_neq in Hnz.
  set (g := gather {| operationResults := ops |}) in *.
  assert (Hcs : chartStart (layoutOf consoleWidth g) = JS.Fin a) by exact Ha.
  pose proof (first_row_starts_first (data g) a Hleast) as Hfirst.
  destruct Hleast as [Hina Hlow].
  assert (Hpos : 0 < b + - a).
  { apply in_map_iff in Hina. destruct Hina as (r0 & <- & Hr0).
    pose proof (Hle r0 Hr0). pose proof (Hup r0 Hr0).
    destruct (Qlt_le_dec 0 (b + - startTime r0)) as [H1|H1]; [exact H1|].
    exfalso. apply Hnz. lra. }
  exists a. split; [exact Ha|].
  split.
  { apply in_map_iff in Hina. destruct Hina as (r & E & Hr). now exists r. }
  split; [exact Hfirst|].
  intros r Hr Hs.
  set (ly := layoutOf consoleWidth g) in *. clearbody ly.
  destruct (scaled_position_bounds a (b + - a) (startTime r) (endTime r)
              (chartWidth ly)) as (_ & Hij & Hj); auto.
  { pose proof (Hup r Hr). lra. }
  rewrite Hdur, Hcs, !columnIndex_finite by exact Hnz.
  assert (E0 : Qfloor ((startTime r + - a) * inject_Z (chartWidth ly) / (b + - a))
               = 0%Z).
  { change 0%Z with (Qfloor 0). apply Qfloor_comp. rewrite Hs. now field. }
  rewrite E0 in *. split; [reflexivity|].
  rewrite chart_in_range by (lia || assumption).
  eexists _, _. split; [reflexivity|].
  rewrite length_repeatNat, symbol_length. lia.
Qed.

(** The three sample operations on 40 columns: A starts first, in column
    0. *)
Lemma first_bar_starts_in_column_0_witness :
  columnIndex 1000 (chartStart layoutABC) (chartWidth layoutABC) (allDuration layoutABC)
  = JS.ofZ 0.
Proof.
  destruct (first_bar_starts_in_column_0 (Some 40%nat) resultABC)
    as (a & Ha & _ & _ & Hs).
  - discriminate.
  - intros r [<-|[<-|[<-|[]]]]; simpl; lra.
  - reflexivity.
  - vm_compute. discriminate.
  - simpl in Ha. inversion Ha; subst a.
    exact (proj1 (Hs rowA (or_introl eq_refl) (Qeq_refl _))).
Defined.

(** ** Plugin package names in [heft.json] *)

Section PluginPackageNames.

Variable Json : Type.
Variable original : nat -> option string.

Lemma restoreName_other (h : CoreConfigFiles.Store Json) (r x : nat) :
  x <> r -> CoreConfigFiles.restoreName original h r x = h x.
Proof.
  intros H. unfold CoreConfigFiles.restoreName, CoreConfigFiles.store.
  destruct (Nat.eqb_spec x r); [contradiction | reflexivity].
Qed.

Lemma restoreName_same (h : CoreConfigFiles.Store Json) (r : nat) :
  CoreConfigFiles.restoreName original h r r
  = {| CoreConfigFiles.pluginPackage := original r;
       CoreConfigFiles.pluginPackageRoot := CoreConfigFiles.pluginPackage (h r);
       CoreConfigFiles.pluginName := CoreConfigFiles.pluginName (h r);
       CoreConfigFiles.options := CoreConfigFiles.options (h r) |}.
Proof.
  unfold CoreConfigFiles.restoreName, CoreConfigFiles.store.
  now rewrite Nat.eqb_refl.
Qed.

(** A plugin specifier after the loop over a list of references, by the
    number of times the list holds its reference. *)
Lemma restoreName_fold (refs : list nat) (h : CoreConfigFiles.Store Json) (r : nat) :
  fold_left (CoreConfigFiles.restoreName original) refs h r
  = match count_occ Nat.eq_dec refs r with
    | O => h r
    | S n =>
        {| CoreConfigFiles.pluginPackage := original r;
           CoreConfigFiles.pluginPackageRoot :=
             match n with
             | O => CoreConfigFiles.pluginPackage (h r)
             | S _ => original r
             end;
           CoreConfigFiles.pluginName := CoreConfigFiles.pluginName (h r);
           CoreConfigFiles.options := CoreConfigFiles.options (h r) |}
    end.
Proof.
  induction refs as [|x refs IH] using rev_ind; [reflexivity|].
  rewrite fold_left_app, count_occ_app. cbn [fold_left count_occ].
  unfold CoreConfigFiles.Ref in *.
  destruct (Nat.eq_dec x r) as [->|Hx].
  - rewrite restoreName_same, IH, Nat.add_1_r.
    destruct (count_occ Nat.eq_dec refs r) as [|[|n]]; reflexivity.
  - rewrite restoreName_other by (intros C; now apply Hx).
    now rewrite IH, Nat.add_0_r.
Qed.

End PluginPackageNames.

(** X14: after [loadHeftConfigurationFileForProjectAsync], every plugin
    specifier of the configuration (each heft plugin and the task plugin
    of every task that has one, the specifiers being different objects)
    carries in [pluginPackageRoot] the resolved package root the loader
    had left in [pluginPackage], and in [pluginPackage] the package name
    the file stated; its [pluginName] and [options] are as before, and an
    object that is no plugin specifier of the configuration is not
    touched. *)
Theorem plugin_specifiers_get_name_and_root (Json : Type)
    (getPropertyOriginalValue : nat -> option string)
    (h : CoreConfigFiles.Store Json)
    (configurationFile : CoreConfigFiles.IHeftConfigurationJson Json) :
  NoDup (CoreConfigFiles.pluginSpecifiersOf configurationFile) ->
  let h' := CoreConfigFiles.loadHeftConfigurationFileForProjectAsync
              getPropertyOriginalValue h configurationFile in
  (forall r, In r (CoreConfigFiles.pluginSpecifiersOf configurationFile) ->
     CoreConfigFiles.pluginPackageRoot (h' r) = CoreConfigFiles.pluginPackage (h r)
     /\ CoreConfigFiles.pluginPackage (h' r) = getPropertyOriginalValue r
     /\ CoreConfigFiles.pluginName (h' r) = CoreConfigFiles.pluginName (h r)
     /\ CoreConfigFiles.options (h' r) = CoreConfigFiles.options (h r))
  /\ (forall r, ~ In r (CoreConfigFiles.pluginSpecifiersOf configurationFile) ->
        h' r = h r)
  /\ (forall phase task r,
        In phase (CoreConfigFiles.orEmpty (CoreConfigFiles.phasesByName configurationFile)) ->
        In task (CoreConfigFiles.orEmpty (CoreConfigFiles.tasksByName (snd phase))) ->
        CoreConfigFiles.taskPlugin (snd task) = Some r ->
        In r (CoreConfigFiles.pluginSpecifiersOf configurationFile))
  /\ (forall r, In r (CoreConfigFiles.orEmpty (CoreConfigFiles.heftPlugins configurationFile)) ->
        In r (CoreConfigFiles.pluginSpecifiersOf configurationFile)).
Proof.
  intros Hnd. cbv zeta.
  unfold CoreConfigFiles.loadHeftConfigurationFileForProjectAsync.
  refine (conj _ (conj _ (conj _ _))).
  - intros r Hr. rewrite restoreName_fold.
    rewrite (proj1 (NoDup_count_occ' Nat.eq_dec _) Hnd r Hr). repeat split.
  - intros r Hr. rewrite restoreName_fold.
    now rewrite (proj1 (count_occ_not_In Nat.eq_dec _ r) Hr).
  - intros phase task r Hp Ht Hr. unfold CoreConfigFiles.pluginSpecifiersOf.
    apply in_or_app. right. apply in_flat_map. exists phase. split; [exact Hp|].
    apply in_flat_map. exists task. split; [exact Ht|]. rewrite Hr. now left.
  - intros r Hr. unfold CoreConfigFiles.pluginSpecifiersOf.
    apply in_or_app. now left.
Qed.

(** The six task plugins of the sample [heft.json]. *)
Lemma plugin_specifiers_get_name_and_root_witness :
  let h' := CoreConfigFiles.loadHeftConfigurationFileForProjectAsync
              heftJsonNames heftJsonResolved heftJson in
  CoreConfigFiles.pluginPackage (h' 3%nat) = Some "@rushstack/heft-jest-plugin"%string
  /\ CoreConfigFiles.pluginPackageRoot (h' 3%nat)
     = Some "/repo/node_modules/@rushstack/heft-jest-plugin"%string.
Proof.
  cbv zeta.
  assert (Hnd : NoDup (CoreConfigFiles.pluginSpecifiersOf heftJson)).
  { apply (NoDup_count_occ' Nat.eq_dec). intros x Hx.
    simpl in Hx. repeat (destruct Hx as [<-|Hx]; [reflexivity|]). destruct Hx. }
  destruct (plugin_specifiers_get_name_and_root unit heftJsonNames heftJsonResolved
              heftJson Hnd) as [H _].
  destruct (H 3%nat) as (Hroot & Hname & _).
  - simpl. tauto.
  - split; [rewrite Hname | rewrite Hroot]; reflexivity.
Defined.

(** X15: the loop that restores the package names takes the resolved
    root from [pluginPackage] as it finds it, so that it cannot be run
    twice over the same objects: a second run over the configuration it
    has already prepared (or a plugin specifier object that the
    configuration holds twice) leaves the package name, not the resolved
    root, in [pluginPackageRoot]. *)
Theorem plugin_package_root_lost_on_second_run (Json : Type)
    (getPropertyOriginalValue : nat -> option string)
    (h : CoreConfigFiles.Store Json)
    (configurationFile : CoreConfigFiles.IHeftConfigurationJson Json) :
  let once := CoreConfigFiles.loadHeftConfigurationFileForProjectAsync
                getPropertyOriginalValue h configurationFile in
  let twice := CoreConfigFiles.loadHeftConfigurationFileForProjectAsync
                 getPropertyOriginalValue once configurationFile in
  (forall r, In r (CoreConfigFiles.pluginSpecifiersOf configurationFile) ->
     CoreConfigFiles.pluginPackageRoot (twice r) = getPropertyOriginalValue r
     /\ CoreConfigFiles.pluginPackage (twice r) = getPropertyOriginalValue r)
  /\ (forall r,
        (2 <= count_occ Nat.eq_dec (CoreConfigFiles.pluginSpecifiersOf configurationFile) r)%nat ->
        CoreConfigFiles.pluginPackageRoot (once r) = getPropertyOriginalValue r).
Proof.
  cbv zeta. unfold CoreConfigFiles.loadHeftConfigurationFileForProjectAsync.
  split.
  - intros r Hr. rewrite !restoreName_fold.
    apply (count_occ_In Nat.eq_dec) in Hr.
    destruct (count_occ Nat.eq_dec (CoreConfigFiles.pluginSpecifiersOf configurationFile) r)
      as [|[|n]]; [lia | split; reflexivity | split; reflexivity].
  - intros r Hr. rewrite restoreName_fold.
    destruct (count_occ Nat.eq_dec (CoreConfigFiles.pluginSpecifiersOf configurationFile) r)
      as [|[|n]]; [lia | lia | reflexivity].
Qed.

Example heftJson_second_run :
  let once := CoreConfigFiles.loadHeftConfigurationFileForProjectAsync
                heftJsonNames heftJsonResolved heftJson in
  let twice := CoreConfigFiles.loadHeftConfigurationFileForProjectAsync
                 heftJsonNames once heftJson in
  CoreConfigFiles.pluginPackageRoot (once 0%nat)
  = Some "/repo/node_modules/@rushstack/heft-typescript-plugin"%string
  /\ CoreConfigFiles.pluginPackageRoot (twice 0%nat)
     = Some "@rushstack/heft-typescript-plugin"%string.
Proof. split; reflexivity. Qed.
